(** * earth_distance.utils: coordinate formatting, Maidenhead locators and
      sunrise times

    A shallow embedding of [src/earth_distance/utils.py].  Python floats are
    idealised: as exact rationals ([Q]) in the formatting and locator code,
    where every arithmetic step of the source is kept and none of them
    rounds, and as real numbers ([R]) in [sun_rise_set], which needs the
    trigonometric functions.  Exceptions are values of [exn] carried by the
    [result] monad. *)

From Stdlib Require Import ZArith QArith Qround Qabs Reals Qreals Psatz Bool List.
From Stdlib Require Import Ascii String DecimalString.
Import ListNotations.

Local Open Scope Z_scope.
Local Open Scope Q_scope.
Local Open Scope string_scope.

(** ** Exceptions and the error monad *)

Inductive exn : Type :=
| ValueError (msg : string)
| ZeroDivisionError
| KeyError (key : string)
| TypeError (msg : string).

Inductive result (A : Type) : Type :=
| Ok (a : A)
| Raise (e : exn).

Arguments Ok {A} a.
Arguments Raise {A} e.

Definition bind {A B : Type} (m : result A) (k : A -> result B) : result B :=
  match m with
  | Ok a => k a
  | Raise e => Raise e
  end.

Notation "x <- m ;; k" := (bind m (fun x => k))
  (at level 61, m at next level, right associativity).

Definition is_ok {A : Type} (m : result A) : bool :=
  match m with Ok _ => true | Raise _ => false end.

(** ** Python numeric primitives on exact rationals *)

(** [int(x)] on a float: truncation towards zero. *)
Definition py_int (x : Q) : Z := Z.quot (Qnum x) (Zpos (Qden x)).

(** [x / y] with [from __future__ import division]. *)
Definition py_div (x y : Q) : result Q :=
  if Qeq_bool y 0 then Raise ZeroDivisionError else Ok (x / y).

(** [x % y] on floats: the result takes the sign of the divisor. *)
Definition py_mod (x y : Q) : result Q :=
  if Qeq_bool y 0 then Raise ZeroDivisionError
  else Ok (x - y * inject_Z (Qfloor (x / y))).

(** [divmod(x, y)] on floats: floored quotient and the matching remainder. *)
Definition py_divmod (x y : Q) : result (Q * Q) :=
  if Qeq_bool y 0 then Raise ZeroDivisionError
  else let q := inject_Z (Qfloor (x / y)) in Ok (q, x - y * q).

(** [str(n)] on an integer. *)
Definition py_str (n : Z) : string := NilZero.string_of_int (Z.to_int n).

(** [ord(c)] and [chr(i)]; [chr] is defined on 0..255 only. *)
Definition ord (c : ascii) : Z := Z.of_N (N_of_ascii c).

Definition chr (i : Z) : result ascii :=
  if (0 <=? i)%Z && (i <? 256)%Z then Ok (ascii_of_N (Z.to_N i))
  else Raise (ValueError "chr() arg not in range(256)").

(** [int(c)] on a one-character string. *)
Definition int_of_char (c : ascii) : result Z :=
  let v := (ord c - 48)%Z in
  if (0 <=? v)%Z && (v <=? 9)%Z then Ok v
  else Raise (ValueError "invalid literal for int() with base 10").

(** [c.lower()] on a one-character byte string. *)
Definition lower (c : ascii) : ascii :=
  let v := ord c in
  if (65 <=? v)%Z && (v <=? 90)%Z then ascii_of_N (Z.to_N (v + 32)) else c.

(** ** Maidenhead locator constants *)

Definition LONGITUDE_FIELD : Q := 20.
Definition LATITUDE_FIELD : Q := 10.
Definition LONGITUDE_SQUARE : Q := LONGITUDE_FIELD / 10.
Definition LATITUDE_SQUARE : Q := LATITUDE_FIELD / 10.
Definition LONGITUDE_SUBSQUARE : Q := LONGITUDE_SQUARE / 24.
Definition LATITUDE_SUBSQUARE : Q := LATITUDE_SQUARE / 24.
Definition LONGITUDE_EXTSQUARE : Q := LONGITUDE_SUBSQUARE / 10.
Definition LATITUDE_EXTSQUARE : Q := LATITUDE_SUBSQUARE / 10.

(** ** Text rendering used by the [%] operator *)

Definition repeat_char (c : ascii) (n : nat) : string :=
  string_of_list_ascii (repeat c n).

(** Sign, then the body padded to [width] columns: zeros after the sign for
    a non-negative width (flag [0]), spaces on the right for a negative one
    (a negative [*] width means left justification). *)
Definition pad_signed (sign body : string) (width : Z) : string :=
  let len := Z.of_nat (String.length sign + String.length body) in
  if (0 <=? width)%Z
  then sign ++ repeat_char "0"%char (Z.to_nat (width - len)) ++ body
  else sign ++ body ++ repeat_char " "%char (Z.to_nat (- width - len)).

Definition sign_text (plus : bool) (negative : bool) : string :=
  if negative then "-" else if plus then "+" else EmptyString.

(** [%i] (with [+] when [plus], zero padded to [width]) applied to a number:
    the argument is truncated towards zero first. *)
Definition fmt_i (plus : bool) (width : Z) (x : Q) : string :=
  let n := py_int x in
  pad_signed (sign_text plus (n <? 0)%Z) (py_str (Z.abs n)) width.

(** Nearest integer, ties to even, of a non-negative rational. *)
Definition round_half_even (x : Q) : Z :=
  let f := Qfloor x in
  let r := x - inject_Z f in
  if Qle_bool r (1 # 2)
  then if Qeq_bool r (1 # 2) then (if Z.even f then f else f + 1)%Z else f
  else (f + 1)%Z.

(** [%.*f] (with [+] when [plus], padded to [width]); a negative precision
    counts as zero. *)
Definition fmt_f (plus : bool) (width : Z) (precision : Z) (x : Q) : string :=
  let p := Z.to_nat precision in
  let scale := (10 ^ Z.of_nat p)%Z in
  let n := round_half_even (Qabs x * inject_Z scale) in
  let ip := py_str (n / scale) in
  let fp := py_str (n mod scale) in
  let frac := match p with
              | O => EmptyString
              | _ => "." ++ repeat_char "0"%char (p - String.length fp) ++ fp
              end in
  pad_signed (sign_text plus (if Qlt_le_dec x 0 then true else false))
             (ip ++ frac) width.

(** ** [from_grid_locator] *)

Definition py_list_repr (l : list Z) : string :=
  "[" ++ String.concat ", " (map py_str l) ++ "]".

Definition in_range (lo hi v : Z) : bool := (lo <=? v)%Z && (v <=? hi)%Z.

Definition zth (l : list Z) (i : nat) : Z := nth i l 0%Z.

Definition from_grid_locator (locator : string) : result (Q * Q) :=
  let len := String.length locator in
  if negb (Nat.eqb len 4 || Nat.eqb len 6 || Nat.eqb len 8)
  then Raise (ValueError ("Locator must be 4, 6 or 8 characters long `"
                          ++ locator ++ "'"))
  else
    let cs := list_ascii_of_string locator in
    let c i := nth i cs zero in
    let l0 := (ord (c 0%nat) - 65)%Z in
    let l1 := (ord (c 1%nat) - 65)%Z in
    l2 <- int_of_char (c 2%nat) ;;
    l3 <- int_of_char (c 3%nat) ;;
    let subsquare :=
      if Nat.leb 6 len
      then [(ord (lower (c 4%nat)) - 97)%Z; (ord (lower (c 5%nat)) - 97)%Z]
      else [] in
    extsquare <- (if Nat.eqb len 8
                  then l6 <- int_of_char (c 6%nat) ;;
                       l7 <- int_of_char (c 7%nat) ;;
                       Ok [l6; l7]
                  else Ok []) ;;
    let locator := ([l0; l1; l2; l3] ++ subsquare ++ extsquare)%list in
    let invalid :=
      Raise (ValueError ("Invalid values in locator `"
                         ++ py_list_repr locator ++ "'")) in
    if negb (in_range 0 17 (zth locator 0)) || negb (in_range 0 17 (zth locator 1))
       || negb (in_range 0 9 (zth locator 2)) || negb (in_range 0 9 (zth locator 3))
    then invalid
    else if Nat.leb 6 len
            && (negb (in_range 0 23 (zth locator 4))
                || negb (in_range 0 23 (zth locator 5)))
    then invalid
    else if Nat.eqb len 8
            && (negb (in_range 0 9 (zth locator 6))
                || negb (in_range 0 9 (zth locator 7)))
    then invalid
    else
      let longitude := LONGITUDE_FIELD * inject_Z (zth locator 0)
                       + LONGITUDE_SQUARE * inject_Z (zth locator 2) in
      let latitude := LATITUDE_FIELD * inject_Z (zth locator 1)
                      + LATITUDE_SQUARE * inject_Z (zth locator 3) in
      let longitude :=
        if Nat.leb 6 len
        then longitude + LONGITUDE_SUBSQUARE * inject_Z (zth locator 4)
        else longitude in
      let latitude :=
        if Nat.leb 6 len
        then latitude + LATITUDE_SUBSQUARE * inject_Z (zth locator 5)
        else latitude in
      let longitude :=
        if Nat.eqb len 8
        then longitude + (LONGITUDE_EXTSQUARE * inject_Z (zth locator 6)
                          + LONGITUDE_EXTSQUARE / 2)
        else longitude + LONGITUDE_EXTSQUARE * 5 in
      let latitude :=
        if Nat.eqb len 8
        then latitude + (LATITUDE_EXTSQUARE * inject_Z (zth locator 7)
                         + LATITUDE_EXTSQUARE / 2)
        else latitude + LATITUDE_EXTSQUARE * 5 in
      let longitude := longitude - 180 in
      let latitude := latitude - 90 in
      Ok (latitude, longitude).

(** ** [to_grid_locator] *)

Definition to_grid_locator (latitude longitude : Q) (precision : string)
  : result string :=
  if negb (String.eqb precision "square" || String.eqb precision "subsquare"
           || String.eqb precision "extsquare")
  then Raise (ValueError ("Unsupported precision value `" ++ precision ++ "'"))
  else if negb (Qle_bool (-90) latitude && Qle_bool latitude 90)
  then Raise (ValueError ("Invalid latitude value `"
                          ++ fmt_f false 0 6 latitude ++ "'"))
  else if negb (Qle_bool (-180) longitude && Qle_bool longitude 180)
  then Raise (ValueError ("Invalid longitude value `"
                          ++ fmt_f false 0 6 longitude ++ "'"))
  else
    let latitude := latitude + 90 in
    let longitude := longitude + 180 in
    let field := py_int (longitude / LONGITUDE_FIELD) in
    c0 <- chr (field + 65) ;;
    let longitude := longitude - inject_Z field * LONGITUDE_FIELD in
    let field := py_int (latitude / LATITUDE_FIELD) in
    c1 <- chr (field + 65) ;;
    let latitude := latitude - inject_Z field * LATITUDE_FIELD in
    let square := py_int (longitude / LONGITUDE_SQUARE) in
    let s2 := py_str square in
    let longitude := longitude - inject_Z square * LONGITUDE_SQUARE in
    let square := py_int (latitude / LATITUDE_SQUARE) in
    let s3 := py_str square in
    let latitude := latitude - inject_Z square * LATITUDE_SQUARE in
    let locator := [String c0 EmptyString; String c1 EmptyString; s2; s3] in
    sub <- (if String.eqb precision "subsquare" || String.eqb precision "extsquare"
            then
              let subsquare := py_int (longitude / LONGITUDE_SUBSQUARE) in
              c4 <- chr (subsquare + 97) ;;
              let longitude' := longitude - inject_Z subsquare * LONGITUDE_SUBSQUARE in
              let subsquare := py_int (latitude / LATITUDE_SUBSQUARE) in
              c5 <- chr (subsquare + 97) ;;
              let latitude' := latitude - inject_Z subsquare * LATITUDE_SUBSQUARE in
              Ok ((locator ++ [String c4 EmptyString; String c5 EmptyString])%list, latitude', longitude')
            else Ok (locator, latitude, longitude)) ;;
    let '(locator, latitude, longitude) := sub in
    let locator :=
      if String.eqb precision "extsquare"
      then
        let extsquare := py_int (longitude / LONGITUDE_EXTSQUARE) in
        let s6 := py_str extsquare in
        let extsquare := py_int (latitude / LATITUDE_EXTSQUARE) in
        (locator ++ [s6; py_str extsquare])%list
      else locator in
    Ok (String.concat EmptyString locator).

(** Text of a locator from its indices. *)

Definition letter (base i : Z) : ascii := ascii_of_N (Z.to_N (i + base)).

Definition text4 (f0 f1 s2 s3 : Z) (tail : string) : string :=
  String (letter 65 f0) (String (letter 65 f1)
    (String (letter 48 s2) (String (letter 48 s3) tail))).

Definition text2 (base a b : Z) (tail : string) : string :=
  String (letter base a) (String (letter base b) tail).

(** ** The locator of the specification *)

(** Character classes of a locator, following the data model of the
    specification: two letters A-R, two digits, two letters a-x, two
    digits. *)
Definition spec_field_char (c : ascii) : bool := in_range 65 82 (ord c).
Definition spec_digit_char (c : ascii) : bool := in_range 48 57 (ord c).
Definition spec_subsquare_char (c : ascii) : bool := in_range 97 120 (ord c).

Definition spec_valid_locator (s : string) : bool :=
  match list_ascii_of_string s with
  | [c0; c1; c2; c3] =>
      spec_field_char c0 && spec_field_char c1
      && spec_digit_char c2 && spec_digit_char c3
  | [c0; c1; c2; c3; c4; c5] =>
      spec_field_char c0 && spec_field_char c1
      && spec_digit_char c2 && spec_digit_char c3
      && spec_subsquare_char c4 && spec_subsquare_char c5
  | [c0; c1; c2; c3; c4; c5; c6; c7] =>
      spec_field_char c0 && spec_field_char c1
      && spec_digit_char c2 && spec_digit_char c3
      && spec_subsquare_char c4 && spec_subsquare_char c5
      && spec_digit_char c6 && spec_digit_char c7
  | _ => false
  end.

(** South-west corner (latitude, longitude) of the smallest cell a locator
    resolves, following the specification: fields of 10 by 20 degrees,
    squares of 1 by 2, subsquares of 1/24 of a square, extsquares of 1/10 of
    a subsquare. *)
Definition spec_cell_corner (s : string) : Q * Q :=
  let cs := list_ascii_of_string s in
  let idx base i := match nth_error cs i with
                    | Some c => inject_Z (ord c - base)
                    | None => 0
                    end in
  (-90 + 10 * idx 65%Z 1%nat + 1 * idx 48%Z 3%nat
   + (1 # 24) * idx 97%Z 5%nat + (1 # 240) * idx 48%Z 7%nat,
   -180 + 20 * idx 65%Z 0%nat + 2 * idx 48%Z 2%nat
   + (2 # 24) * idx 97%Z 4%nat + (2 # 240) * idx 48%Z 6%nat).

(** Height and width in degrees of that cell. *)
Definition spec_cell_size (s : string) : Q * Q :=
  match String.length s with
  | 4%nat => (1, 2)
  | 6%nat => (1 # 24, 2 # 24)
  | _ => (1 # 240, 2 # 240)
  end.

Definition spec_cell_center (s : string) : Q * Q :=
  (fst (spec_cell_corner s) + fst (spec_cell_size s) / 2,
   snd (spec_cell_corner s) + snd (spec_cell_size s) / 2).



(** The precision levels [to_grid_locator] accepts. *)
Definition valid_precision (precision : string) : Prop :=
  precision = "square" \/ precision = "subsquare" \/ precision = "extsquare".

(** ** [to_dms] and [to_dd] *)

(** The tuples [to_dms] returns: three integers for style [dms], an integer
    and a float for style [dm]. *)
Inductive angle_parts : Type :=
| Dms (degrees minutes seconds : Z)
| Dm (degrees : Z) (minutes : Q).

Definition to_dms (angle : Q) (style : string) : result angle_parts :=
  ratio <- py_div angle (Qabs angle) ;;
  let sign := py_int ratio in
  let angle := Qabs angle * 3600 in
  ms <- py_divmod angle 60 ;;
  let '(minutes, seconds) := ms in
  dm <- py_divmod minutes 60 ;;
  let '(degrees, minutes) := dm in
  if String.eqb style "dms"
  then Ok (Dms (sign * py_int degrees) (sign * py_int minutes)
               (sign * py_int seconds))
  else if String.eqb style "dm"
  then Ok (Dm (sign * py_int degrees)
              (inject_Z sign * (inject_Z (py_int minutes)
                                + inject_Z (py_int seconds) / 60)))
  else Raise (ValueError ("Unknown style type `" ++ style ++ "'")).



(** ** [from_iso6709] *)

Definition is_sign (c : ascii) : bool :=
  Ascii.eqb c "-" || Ascii.eqb c "+".

Definition is_digit (c : ascii) : bool := in_range 48 57 (ord c).

Definition is_digit_or_dot (c : ascii) : bool :=
  is_digit c || Ascii.eqb c ".".

(** Longest prefix of characters satisfying [p], and the rest. *)
Fixpoint span (p : ascii -> bool) (cs : list ascii) : list ascii * list ascii :=
  match cs with
  | c :: rest =>
      if p c
      then let '(taken, others) := span p rest in (c :: taken, others)
      else ([], cs)
  | [] => ([], [])
  end.

(** One group [[-+][\d\.]+] of the pattern, matched greedily. *)
Definition signed_group (cs : list ascii) : option (list ascii * list ascii) :=
  match cs with
  | c :: rest =>
      if is_sign c
      then match span is_digit_or_dot rest with
           | ([], _) => None
           | (body, others) => Some (c :: body, others)
           end
      else None
  | [] => None
  end.

(** [/$]: a slash at the end of the string, or before a final newline. *)
Definition at_slash_end (cs : list ascii) : bool :=
  match cs with
  | [c] => Ascii.eqb c "/"
  | [c; nl] => Ascii.eqb c "/" && Ascii.eqb nl "010"
  | _ => false
  end.

(** [re.match(r'^([-+][\d\.]+)([-+][\d\.]+)([+-][\d\.]+)?/$', s).groups()];
    [None] when the pattern does not match. *)
Definition match_iso6709 (coordinates : string)
  : option (string * string * option string) :=
  match signed_group (list_ascii_of_string coordinates) with
  | Some (latitude, rest1) =>
      match signed_group rest1 with
      | Some (longitude, rest2) =>
          match signed_group rest2 with
          | Some (altitude, rest3) =>
              if at_slash_end rest3
              then Some (string_of_list_ascii latitude,
                         string_of_list_ascii longitude,
                         Some (string_of_list_ascii altitude))
              else None
          | None =>
              if at_slash_end rest2
              then Some (string_of_list_ascii latitude,
                         string_of_list_ascii longitude, None)
              else None
          end
      | None => None
      end
  | None => None
  end.

(** Value of a string of decimal digits read as an integer. *)
Definition digits_value (cs : list ascii) : Z :=
  fold_left (fun acc c => (10 * acc + (ord c - 48))%Z) cs 0%Z.

(** [float(text)] on the texts [from_iso6709] passes to it, which hold only
    signs, digits and dots: an optional leading sign, digits with at most
    one dot, and at least one digit. *)
Definition py_float (text : string) : result Q :=
  let cs := list_ascii_of_string text in
  let '(negative, body) :=
    match cs with
    | c :: rest => if is_sign c then (Ascii.eqb c "-", rest) else (false, cs)
    | [] => (false, [])
    end in
  let '(whole, after) := span is_digit body in
  let '(fraction, junk) :=
    match after with
    | c :: rest => if Ascii.eqb c "." then span is_digit rest else ([], after)
    | [] => ([], [])
    end in
  match junk, (whole ++ fraction)%list with
  | [], _ :: _ =>
      let magnitude :=
        inject_Z (digits_value whole)
        + inject_Z (digits_value fraction)
          / inject_Z (10 ^ Z.of_nat (List.length fraction)) in
      Ok (if negative then - magnitude else magnitude)
  | _, _ => Raise (ValueError ("invalid literal for float(): " ++ text))
  end.

(** [text[i:j]] and [text[i:]]. *)
Definition slice (text : string) (i j : nat) : string :=
  string_of_list_ascii (firstn (j - i) (skipn i (list_ascii_of_string text))).

Definition slice_from (text : string) (i : nat) : string :=
  string_of_list_ascii (skipn i (list_ascii_of_string text)).

(** [len(text.split(".")[0])]. *)
Definition head_length (text : string) : nat :=
  List.length (fst (span (fun c => negb (Ascii.eqb c ".")) (list_ascii_of_string text))).

Definition from_iso6709 (coordinates : string) : result (Q * Q * option Q) :=
  match match_iso6709 coordinates with
  | None => Raise (ValueError "Incorrect format for string")
  | Some (latitude, longitude, altitude) =>
      let latitude_head := head_length latitude in
      latitude <-
        (if Nat.eqb latitude_head 3 then py_float latitude
         else if Nat.eqb latitude_head 5
         then d <- py_float (slice latitude 0 3) ;;
              m <- py_float (slice_from latitude 3) ;;
              Ok (d + m / 60)
         else if Nat.eqb latitude_head 7
         then d <- py_float (slice latitude 0 3) ;;
              m <- py_float (slice latitude 3 5) ;;
              s <- py_float (slice_from latitude 5) ;;
              Ok (d + m / 60 + s / 3600)
         else Raise (ValueError ("Incorrect format for latitude `"
                                 ++ latitude ++ "'"))) ;;
      let longitude_head := head_length longitude in
      longitude <-
        (if Nat.eqb longitude_head 4 then py_float longitude
         else if Nat.eqb longitude_head 6
         then d <- py_float (slice longitude 0 4) ;;
              m <- py_float (slice_from longitude 4) ;;
              Ok (d + m / 60)
         else if Nat.eqb longitude_head 8
         then d <- py_float (slice longitude 0 4) ;;
              m <- py_float (slice longitude 4 6) ;;
              s <- py_float (slice_from longitude 6) ;;
              Ok (d + m / 60 + s / 3600)
         else Raise (ValueError ("Incorrect format for longitude `"
                                 ++ longitude ++ "'"))) ;;
      altitude <-
        match altitude with
        | Some text => a <- py_float text ;; Ok (Some a)
        | None => Ok None
        end ;;
      Ok (latitude, longitude, altitude)
  end.

(** ** [to_iso6709] *)

Definition to_iso6709 (latitude longitude : Q) (altitude : option Q)
           (format : string) (precision : Z) : result string :=
  text <-
    (if String.eqb format "d"
     then Ok (fmt_i true 3 latitude ++ fmt_i true 4 longitude)
     else if String.eqb format "dd"
     then Ok (fmt_f true (precision + 4) precision latitude
              ++ fmt_f true (precision + 5) precision longitude)
     else if String.eqb format "dm"
     then
       la <- to_dms latitude "dm" ;;
       match la with
       | Dm d m =>
           let text := fmt_i true 3 (inject_Z d) ++ fmt_i false 2 m in
           lo <- to_dms longitude "dm" ;;
           match lo with
           | Dm d m => Ok (text ++ fmt_i true 4 (inject_Z d) ++ fmt_i false 2 m)
           | Dms _ _ _ => Raise (TypeError "not all arguments converted")
           end
       | Dms _ _ _ => Raise (TypeError "not all arguments converted")
       end
     else if String.eqb format "dms"
     then
       la <- to_dms latitude "dms" ;;
       match la with
       | Dms d m s =>
           let text := fmt_i true 3 (inject_Z d) ++ fmt_i false 2 (inject_Z m)
                       ++ fmt_i false 2 (inject_Z s) in
           lo <- to_dms longitude "dms" ;;
           match lo with
           | Dms d m s =>
               Ok (text ++ fmt_i true 4 (inject_Z d) ++ fmt_i false 2 (inject_Z m)
                   ++ fmt_i false 2 (inject_Z s))
           | Dm _ _ => Raise (TypeError "not enough arguments for format string")
           end
       | Dm _ _ => Raise (TypeError "not enough arguments for format string")
       end
     else Raise (ValueError ("Unknown format type `" ++ format ++ "'"))) ;;
  let truthy (a : option Q) : bool :=
    match a with Some v => negb (Qeq_bool v 0) | None => false end in
  let whole (a : option Q) : bool :=
    match a with Some v => Qeq_bool (inject_Z (py_int v)) v | None => false end in
  let text :=
    match altitude with
    | Some v =>
        if truthy altitude && whole altitude then text ++ fmt_i true 0 v
        else if truthy altitude then text ++ fmt_f true 0 3 v
        else text
    | None => text
    end in
  Ok (text ++ "/").



(** The altitude text of the specification: a signed integer for a whole
    number of metres, a signed value with three decimals otherwise, nothing
    without an altitude. *)
Definition spec_altitude_text (altitude : option Q) : string :=
  match altitude with
  | Some v =>
      if Qeq_bool (inject_Z (py_int v)) v then fmt_i true 0 v
      else fmt_f true 0 3 v
  | None => EmptyString
  end.

(** * Sunrise and sunset

    [sun_rise_set] works with [math.sin], [math.atan] and the like, so this
    part idealises Python floats as real numbers. *)

Local Open Scope R_scope.

(** ** Python numeric primitives on reals *)

(** [int(x)]: truncation towards zero. *)
Definition r_int (x : R) : Z :=
  if Rle_dec 0 x then Int_part x else (- Int_part (- x))%Z.

(** [math.floor(x)], a float. *)
Definition r_floor (x : R) : R := IZR (Int_part x).

(** [x % y] on floats. *)
Definition r_mod (x y : R) : result R :=
  if Req_dec_T y 0 then Raise ZeroDivisionError
  else Ok (x - y * r_floor (x / y)).

Definition r_div (x y : R) : result R :=
  if Req_dec_T y 0 then Raise ZeroDivisionError else Ok (x / y).

Definition radians (x : R) : R := x * (PI / 180).
Definition degrees (x : R) : R := x * (180 / PI).

(** [math.asin] and [math.acos] raise ValueError outside [-1, 1]. *)
Definition math_asin (x : R) : result R :=
  if Rlt_dec x (-1) then Raise (ValueError "math domain error")
  else if Rlt_dec 1 x then Raise (ValueError "math domain error")
  else Ok (asin x).

Definition math_acos (x : R) : result R :=
  if Rlt_dec x (-1) then Raise (ValueError "math domain error")
  else if Rlt_dec 1 x then Raise (ValueError "math domain error")
  else Ok (acos x).

(** ** Dates and times of [datetime] *)

Record date : Type := mkdate { year : Z; month : Z; day : Z }.

Record time : Type := mktime { hour : Z; minute : Z }.

Definition is_leap (y : Z) : bool :=
  ((y mod 4 =? 0) && (negb (y mod 100 =? 0) || (y mod 400 =? 0)))%Z.

Definition days_before_month (y m : Z) : Z :=
  (nth (Z.to_nat (m - 1)) [0; 31; 59; 90; 120; 151; 181; 212; 243; 273; 304; 334] 0
   + (if (2 <? m) && is_leap y then 1 else 0))%Z.

(** [(date - datetime.date(date.year - 1, 12, 31)).days]. *)
Definition day_of_year (d : date) : Z :=
  (days_before_month (year d) (month d) + day d)%Z.

(** [datetime.time(hour, minute)]. *)
Definition datetime_time (h m : Z) : result time :=
  if negb (in_range 0 23 h) then Raise (ValueError "hour must be in 0..23")
  else if negb (in_range 0 59 m) then Raise (ValueError "minute must be in 0..59")
  else Ok (mktime h m).

(** ** [ZENITH] and [sun_rise_set] *)

Definition ZENITH (key : option string) : result R :=
  match key with
  | None => Ok (-50 / 60)
  | Some k =>
      if String.eqb k "civil" then Ok (-6)
      else if String.eqb k "nautical" then Ok (-12)
      else if String.eqb k "astronomical" then Ok (-18)
      else Raise (KeyError k)
  end.

(** Lines 482-524 of [sun_rise_set]: the approximate time [t], the right
    ascension in hours and the cosine of the local hour angle. *)
Definition sun_position (latitude longitude : R) (d : date) (mode : string)
           (zenith : option string) : result (R * R * R) :=
  zenith <- ZENITH zenith ;;
  let n := IZR (day_of_year d) in
  let lngHour := longitude / 15 in
  t <- (if String.eqb mode "rise" then Ok (n + ((6 - lngHour) / 24))
        else if String.eqb mode "set" then Ok (n + ((18 - lngHour) / 24))
        else Raise (ValueError ("Unknown mode value `" ++ mode ++ "'"))) ;;
  let m := (0.9856 * t) - 3.289 in
  let l := m + 1.916 * sin (radians m) + 0.020 * sin (2 * radians m) + 282.634 in
  l <- r_mod (Rabs l) 360 ;;
  let ra := degrees (atan (0.91764 * tan (radians l))) in
  let lQuandrant := r_floor (l / 90) * 90 in
  let raQuandrant := r_floor (ra / 90) * 90 in
  let ra := ra + (lQuandrant - raQuandrant) in
  let ra := ra / 15 in
  let sinDec := 0.39782 * sin (radians l) in
  decl <- math_asin sinDec ;;
  let cosDec := cos decl in
  cosH <- r_div (radians zenith - (sinDec * sin (radians latitude)))
                (cosDec * cos (radians latitude)) ;;
  Ok (t, ra, cosH).

(** Lines 549-558 of [sun_rise_set]: hour and minute of the local time. *)
Definition local_clock (localT : R) : result time :=
  let hour := r_int localT in
  minute <- (if (hour =? 0)%Z then Ok (r_int (60 * localT))
             else rest <- r_mod localT (IZR hour) ;; Ok (r_int (60 * rest))) ;;
  let hour := if (hour <? 0)%Z then (hour + 23)%Z else hour in
  let minute := if (minute <? 0)%Z then (minute + 60)%Z else minute in
  datetime_time hour minute.

Definition sun_rise_set (latitude longitude : R) (d : date) (mode : string)
           (timezone : Z) (zenith : option string) : result (option time) :=
  position <- sun_position latitude longitude d mode zenith ;;
  let '(t, ra, cosH) := position in
  let lngHour := longitude / 15 in
  if Rlt_dec 1 cosH then Ok None
  else if Rlt_dec cosH (-1) then Ok None
  else
    angle <- math_acos cosH ;;
    let h := if String.eqb mode "rise" then 360 - degrees angle
             else degrees angle in
    let h := h / 15 in
    let T := h + ra - (0.06571 * t) - 6.622 in
    let UT := T - lngHour in
    let localT := UT + IZR timezone / 60 in
    clock <- local_clock localT ;;
    Ok (Some clock).

Definition sun_events (latitude longitude : R) (d : date) (timezone : Z)
           (zenith : option string) : result (option time * option time) :=
  rise <- sun_rise_set latitude longitude d "rise" timezone zenith ;;
  sunset <- sun_rise_set latitude longitude d "set" timezone zenith ;;
  Ok (rise, sunset).

(** The clock a correction modulo 24 hours would give, following the
    specification's remark: the local time reduced into [0, 24), then its
    whole hours and whole minutes. *)
Definition spec_clock_mod24 (localT : R) : time :=
  let reduced := localT - 24 * r_floor (localT / 24) in
  mktime (Int_part reduced) (Int_part (60 * (reduced - r_floor reduced))).

Local Close Scope R_scope.

(** ** Rational intervals enclosing reals

    The concrete sunrise and sunset times are established by enclosing every
    intermediate real of [sun_rise_set] between two rationals. *)

Record itv : Type := mkitv { lo : Q; hi : Q }.

Definition contains (I : itv) (x : R) : Prop :=
  (Q2R (lo I) <= x <= Q2R (hi I))%R.

(** Endpoints are rounded outwards to eighteen decimals. *)
Definition grain : positive := (10 ^ 18)%positive.

Definition rnd_dn (q : Q) : Q := Qfloor (q * inject_Z (Zpos grain)) # grain.
Definition rnd_up (q : Q) : Q := Qceiling (q * inject_Z (Zpos grain)) # grain.

Definition qmin (a b : Q) : Q := if Qle_bool a b then a else b.
Definition qmax (a b : Q) : Q := if Qle_bool a b then b else a.

Definition ipoint (q : Q) : itv := mkitv q q.

Definition iadd (I J : itv) : itv :=
  mkitv (rnd_dn (lo I + lo J)) (rnd_up (hi I + hi J)).

Definition iopp (I : itv) : itv := mkitv (- hi I) (- lo I).

Definition isub (I J : itv) : itv :=
  mkitv (rnd_dn (lo I - hi J)) (rnd_up (hi I - lo J)).

Definition imul (I J : itv) : itv :=
  let a := lo I * lo J in
  let b := lo I * hi J in
  let c := hi I * lo J in
  let d := hi I * hi J in
  mkitv (rnd_dn (qmin (qmin a b) (qmin c d)))
        (rnd_up (qmax (qmax a b) (qmax c d))).

(** An interval that does not touch zero. *)
Definition apart (I : itv) : bool :=
  Qle_bool (lo I) (hi I)
  && (negb (Qle_bool (lo I) 0) || negb (Qle_bool 0 (hi I))).

Definition iinv (I : itv) : itv := mkitv (rnd_dn (/ hi I)) (rnd_up (/ lo I)).

Definition idiv (I J : itv) : itv := imul I (iinv J).

Definition within (I J : itv) : bool :=
  Qle_bool (lo J) (lo I) && Qle_bool (hi I) (hi J).

(** Alternating sum [t - t' + t'' - ...] of [n + 1] terms, each term being
    the previous one times [a2 / ((k + 1) (k + 2))]: the partial sums of the
    sine ([t = a], [k = 1]) and cosine ([t = 1], [k = 0]) series. *)
Fixpoint alt_sum (a2 t : R) (k : Z) (n : nat) : R :=
  match n with
  | O => t
  | S n' =>
      (t - alt_sum a2 (t * a2 / (IZR (k + 1) * IZR (k + 2))) (k + 2) n')%R
  end.

Fixpoint ialt_sum (A2 T : itv) (k : Z) (n : nat) : itv :=
  match n with
  | O => T
  | S n' =>
      isub T (ialt_sum A2 (idiv (imul T A2)
                                (ipoint (inject_Z ((k + 1) * (k + 2)))))
                       (k + 2) n')
  end.

(** Enclosures of sine on [0, 4] and cosine on [-2, 2] from [2 n + 2] and
    [2 n + 3] terms of their series. *)
Definition isin (n : nat) (A : itv) : itv :=
  let A2 := imul A A in
  mkitv (lo (ialt_sum A2 A 1 (2 * n + 1))) (hi (ialt_sum A2 A 1 (2 * (n + 1)))).

Definition icos (n : nat) (A : itv) : itv :=
  let A2 := imul A A in
  mkitv (lo (ialt_sum A2 (ipoint 1) 0 (2 * n + 1)))
        (hi (ialt_sum A2 (ipoint 1) 0 (2 * (n + 1)))).

Definition sin_domain (A : itv) : bool :=
  Qle_bool 0 (lo A) && Qle_bool (hi A) 4.

Definition cos_domain (A : itv) : bool :=
  Qle_bool (-2) (lo A) && Qle_bool (hi A) 2.

(** Partial sums of Machin-like series for pi / 4, as rationals. *)
Fixpoint qpow (q : Q) (n : nat) : Q :=
  match n with
  | O => 1
  | S n' => q * qpow q n'
  end.

Definition pi_term (i : nat) : Q :=
  qpow (-1) i
  * (2 * (qpow (1 # 3) (2 * i + 1) / inject_Z (Z.of_nat (2 * i + 1)))
     + qpow (1 # 7) (2 * i + 1) / inject_Z (Z.of_nat (2 * i + 1))).

Fixpoint pi_sum (n : nat) : Q :=
  match n with
  | O => pi_term 0
  | S n' => pi_sum n' + pi_term n
  end.

Definition IPI_series : itv :=
  mkitv (rnd_dn (4 * pi_sum 17)) (rnd_up (4 * pi_sum 16)).

Definition IPI : itv :=
  mkitv (31415926535897932 # 10000000000000000)
        (31415926535897933 # 10000000000000000).

(** ** Helpers for statements about locators *)

(** The precision level whose locators have the length of [s]. *)
Definition locator_precision (s : string) : string :=
  match String.length s with
  | 4%nat => "square"
  | 6%nat => "subsquare"
  | _ => "extsquare"
  end.

(** [s] with its fifth and sixth characters, the subsquare, in lower case. *)
Definition lower_subsquare (s : string) : string :=
  match s with
  | String c0 (String c1 (String c2 (String c3 (String c4 (String c5 rest))))) =>
      String c0 (String c1 (String c2 (String c3
        (String (lower c4) (String (lower c5) rest)))))
  | _ => s
  end.

(** The tuple [to_dms] returns, with every part negated. *)
Definition opp_parts (parts : angle_parts) : angle_parts :=
  match parts with
  | Dms d m s => Dms (- d) (- m) (- s)
  | Dm d m => Dm (- d) (- m)
  end.

(** ** [angle_to_distance] and [distance_to_angle] *)

Local Open Scope R_scope.

(** [BODIES['Earth']], in kilometres, and the two miles in kilometres. *)
Definition BODY_RADIUS : R := 6372.
Definition NAUTICAL_MILE : R := 1.852.
Definition STATUTE_MILE : R := 1.609.

(** The divisions are by the two constants above, which are not zero. *)
Definition angle_to_distance (angle : R) (format : string) : result R :=
  let distance := radians angle * BODY_RADIUS in
  if String.eqb format "metric" then Ok distance
  else if String.eqb format "imperial" || String.eqb format "US customary"
  then Ok (distance / STATUTE_MILE)
  else if String.eqb format "nautical" then Ok (distance / NAUTICAL_MILE)
  else Raise (ValueError ("Unknown unit type `" ++ format ++ "'")).

Definition distance_to_angle (distance : R) (format : string) : result R :=
  distance <-
    (if String.eqb format "metric" then Ok distance
     else if String.eqb format "imperial" || String.eqb format "US customary"
     then Ok (distance * STATUTE_MILE)
     else if String.eqb format "nautical" then Ok (distance * NAUTICAL_MILE)
     else Raise (ValueError ("Unknown unit type `" ++ format ++ "'"))) ;;
  Ok (degrees (distance / BODY_RADIUS)).

(** The unit names both conversions know. *)
Definition known_unit (format : string) : Prop :=
  format = "metric" \/ format = "imperial" \/ format = "US customary"
  \/ format = "nautical".

Local Close Scope R_scope.

(** ** Helpers for statements about ISO 6709 texts *)

(** [cs] is [len] decimal digits that read [n]. *)
Definition plain_digits (len : nat) (n : Z) (cs : list ascii) : bool :=
  Nat.eqb (List.length cs) len && forallb is_digit cs
  && (digits_value cs =? n)%Z.

(** [cs] is a sign followed by [len] digits that read [abs n]; the sign is
    [-] exactly when [n] is negative. *)
Definition signed_digits (len : nat) (n : Z) (cs : list ascii) : bool :=
  match cs with
  | sg :: body =>
      Ascii.eqb sg (if (n <? 0)%Z then "-" else "+")%char
      && plain_digits len (Z.abs n) body
  | [] => false
  end.

(** The [count] integers from [lo] on. *)
Definition z_range (lo : Z) (count : nat) : list Z :=
  map (fun k => (lo + Z.of_nat k)%Z) (seq 0 count).

(** * Properties *)

Example to_grid_locator_doc1 :
  to_grid_locator (21319 # 1000) (-157904 # 1000) "extsquare" = Ok "BL11bh16".
Proof. vm_compute. reflexivity. Qed.

Example to_grid_locator_doc3 :
  to_grid_locator (52021 # 1000) (-1958 # 1000) "square" = Ok "IO92".
Proof. vm_compute. reflexivity. Qed.

(** ** Elementary facts about the primitives *)

Lemma py_int_floor (x : Q) : 0 <= x -> py_int x = Qfloor x.
Proof.
  destruct x as [n d]; unfold Qle, py_int, Qfloor; simpl; intros H.
  apply Z.quot_div_nonneg; lia.
Qed.

Lemma py_int_inject (z : Z) : py_int (inject_Z z) = z.
Proof. unfold py_int; simpl. apply Z.quot_1_r. Qed.

Lemma ord_ascii_of (i : Z) :
  (0 <= i < 256)%Z -> ord (ascii_of_N (Z.to_N i)) = i.
Proof.
  intros H; unfold ord.
  rewrite N_ascii_embedding by lia. lia.
Qed.

Lemma chr_ok (i : Z) :
  (0 <= i < 256)%Z -> chr i = Ok (ascii_of_N (Z.to_N i)).
Proof.
  intros H; unfold chr.
  replace (0 <=? i)%Z with true by (symmetry; apply Z.leb_le; lia).
  replace (i <? 256)%Z with true by (symmetry; apply Z.ltb_lt; lia).
  reflexivity.
Qed.

Lemma digit_cases (d : Z) :
  (0 <= d <= 9)%Z ->
  d = 0%Z \/ d = 1%Z \/ d = 2%Z \/ d = 3%Z \/ d = 4%Z \/ d = 5%Z
  \/ d = 6%Z \/ d = 7%Z \/ d = 8%Z \/ d = 9%Z.
Proof. lia. Qed.

Lemma py_str_digit (d : Z) :
  (0 <= d <= 9)%Z ->
  py_str d = String (ascii_of_N (Z.to_N (d + 48))) EmptyString.
Proof.
  intros H; destruct (digit_cases d H) as [E|[E|[E|[E|[E|[E|[E|[E|[E|E]]]]]]]]];
    subst d; reflexivity.
Qed.



Lemma in_range_true (lo hi v : Z) : (lo <= v <= hi)%Z -> in_range lo hi v = true.
Proof.
  intros H; unfold in_range. apply andb_true_iff; split; apply Z.leb_le; lia.
Qed.


(** One division step of the encoder: a non-negative remainder [x] below
    [n] cells of width [w] yields an index in [0, n) and a new remainder in
    [0, w). *)
Lemma encode_step (x w : Q) (n : Z) :
  0 < w -> 0 <= x -> x < inject_Z n * w ->
  (0 <= py_int (x / w) < n)%Z
  /\ 0 <= x - inject_Z (py_int (x / w)) * w
  /\ x - inject_Z (py_int (x / w)) * w < w.
Proof.
  intros Hw Hx Hn.
  assert (Hq : 0 <= x / w) by (apply Qle_shift_div_l; [exact Hw | lra]).
  rewrite (py_int_floor _ Hq).
  pose proof (Qfloor_le (x / w)) as Hlo.
  pose proof (Qlt_floor (x / w)) as Hhi.
  rewrite inject_Z_plus in Hhi.
  assert (Hxw : x == (x / w) * w) by (field; lra).
  set (f := Qfloor (x / w)) in *.
  assert (Hlo' : inject_Z f * w <= (x / w) * w)
    by (apply Qmult_le_compat_r; [exact Hlo | lra]).
  assert (Hhi' : (x / w) * w < (inject_Z f + 1) * w)
    by (apply Qmult_lt_compat_r; [exact Hw | exact Hhi]).
  split; [split|split].
  - change 0%Z with (Qfloor 0). apply Qfloor_resp_le. exact Hq.
  - rewrite Zlt_Qlt.
    apply Qle_lt_trans with (x / w); [exact Hlo|].
    apply Qlt_shift_div_r; [exact Hw | exact Hn].
  - lra.
  - lra.
Qed.

(** ** The encoder in closed form *)

Lemma Qle_bool_true (x y : Q) : x <= y -> Qle_bool x y = true.
Proof. intros H; apply Qle_bool_iff; exact H. Qed.

Lemma Qle_bool_false (x y : Q) : y < x -> Qle_bool x y = false.
Proof.
  intros H. destruct (Qle_bool x y) eqn:E; [|reflexivity].
  apply Qle_bool_iff in E. lra.
Qed.

Ltac cell_value k := let v := eval vm_compute in k in change k with v in *.

Ltac unfold_cells :=
  cell_value LONGITUDE_EXTSQUARE; cell_value LATITUDE_EXTSQUARE;
  cell_value LONGITUDE_SUBSQUARE; cell_value LATITUDE_SUBSQUARE;
  cell_value LONGITUDE_SQUARE; cell_value LATITUDE_SQUARE;
  cell_value LONGITUDE_FIELD; cell_value LATITUDE_FIELD.

(** What [to_grid_locator] emits on its accepted domain: the eight indices,
    the remainder left after the last division, and the three strings. *)
Lemma encoder_shape (lat lon : Q) :
  -90 <= lat -> lat <= 90 -> -180 <= lon -> lon <= 180 ->
  exists (f0 f1 s2 s3 u4 u5 e6 e7 : Z) (rx ry : Q),
    ((0 <= f0 <= 18)%Z /\ (lon < 180 -> (f0 <= 17)%Z) /\ (lon == 180 -> f0 = 18%Z))
    /\ ((0 <= f1 <= 18)%Z /\ (lat < 90 -> (f1 <= 17)%Z) /\ (lat == 90 -> f1 = 18%Z))
    /\ ((0 <= s2 <= 9)%Z /\ (0 <= s3 <= 9)%Z /\ (0 <= u4 <= 23)%Z
        /\ (0 <= u5 <= 23)%Z /\ (0 <= e6 <= 9)%Z /\ (0 <= e7 <= 9)%Z)
    /\ (lon + 180 == 20 * inject_Z f0 + 2 * inject_Z s2 + (1 # 12) * inject_Z u4
                     + (1 # 120) * inject_Z e6 + rx
        /\ 0 <= rx /\ rx < 1 # 120)
    /\ (lat + 90 == 10 * inject_Z f1 + inject_Z s3 + (1 # 24) * inject_Z u5
                    + (1 # 240) * inject_Z e7 + ry
        /\ 0 <= ry /\ ry < 1 # 240)
    /\ to_grid_locator lat lon "square" = Ok (text4 f0 f1 s2 s3 EmptyString)
    /\ to_grid_locator lat lon "subsquare"
       = Ok (text4 f0 f1 s2 s3 (text2 97 u4 u5 EmptyString))
    /\ to_grid_locator lat lon "extsquare"
       = Ok (text4 f0 f1 s2 s3 (text2 97 u4 u5 (text2 48 e6 e7 EmptyString))).
Proof.
  intros Hl1 Hl2 Hg1 Hg2.
  remember (lon + 180) as x0 eqn:Ex0.
  remember (py_int (x0 / LONGITUDE_FIELD)) as f0 eqn:Ef0.
  remember (x0 - inject_Z f0 * LONGITUDE_FIELD) as x1 eqn:Ex1.
  remember (py_int (x1 / LONGITUDE_SQUARE)) as s2 eqn:Es2.
  remember (x1 - inject_Z s2 * LONGITUDE_SQUARE) as x2 eqn:Ex2.
  remember (py_int (x2 / LONGITUDE_SUBSQUARE)) as u4 eqn:Eu4.
  remember (x2 - inject_Z u4 * LONGITUDE_SUBSQUARE) as x3 eqn:Ex3.
  remember (py_int (x3 / LONGITUDE_EXTSQUARE)) as e6 eqn:Ee6.
  remember (lat + 90) as y0 eqn:Ey0.
  remember (py_int (y0 / LATITUDE_FIELD)) as f1 eqn:Ef1.
  remember (y0 - inject_Z f1 * LATITUDE_FIELD) as y1 eqn:Ey1.
  remember (py_int (y1 / LATITUDE_SQUARE)) as s3 eqn:Es3.
  remember (y1 - inject_Z s3 * LATITUDE_SQUARE) as y2 eqn:Ey2.
  remember (py_int (y2 / LATITUDE_SUBSQUARE)) as u5 eqn:Eu5.
  remember (y2 - inject_Z u5 * LATITUDE_SUBSQUARE) as y3 eqn:Ey3.
  remember (py_int (y3 / LATITUDE_EXTSQUARE)) as e7 eqn:Ee7.
  assert (Hx0 : 0 <= x0) by (subst x0; lra).
  assert (Hx0' : x0 <= 360) by (subst x0; lra).
  assert (Hy0 : 0 <= y0) by (subst y0; lra).
  assert (Hy0' : y0 <= 180) by (subst y0; lra).
  assert (Hnx0 : x0 < inject_Z 19 * LONGITUDE_FIELD) by (clear - Hx0'; unfold_cells; unfold inject_Z; lra).
  destruct (encode_step x0 LONGITUDE_FIELD 19 eq_refl Hx0 Hnx0) as (Bf0 & Lx1 & Ux1).
  rewrite <- Ef0 in Bf0, Lx1, Ux1.
  rewrite <- Ex1 in Lx1, Ux1.
  assert (Hnx1 : x1 < inject_Z 10 * LONGITUDE_SQUARE) by (clear - Ux1; revert Ux1; unfold_cells; unfold inject_Z; lra).
  destruct (encode_step x1 LONGITUDE_SQUARE 10 eq_refl Lx1 Hnx1) as (Bs2 & Lx2 & Ux2).
  rewrite <- Es2 in Bs2, Lx2, Ux2.
  rewrite <- Ex2 in Lx2, Ux2.
  assert (Hnx2 : x2 < inject_Z 24 * LONGITUDE_SUBSQUARE) by (clear - Ux2; revert Ux2; unfold_cells; unfold inject_Z; lra).
  destruct (encode_step x2 LONGITUDE_SUBSQUARE 24 eq_refl Lx2 Hnx2) as (Bu4 & Lx3 & Ux3).
  rewrite <- Eu4 in Bu4, Lx3, Ux3.
  rewrite <- Ex3 in Lx3, Ux3.
  assert (Hnx3 : x3 < inject_Z 10 * LONGITUDE_EXTSQUARE) by (clear - Ux3; revert Ux3; unfold_cells; unfold inject_Z; lra).
  destruct (encode_step x3 LONGITUDE_EXTSQUARE 10 eq_refl Lx3 Hnx3) as (Be6 & Lx4 & Ux4).
  rewrite <- Ee6 in Be6, Lx4, Ux4.
  assert (Hny0 : y0 < inject_Z 19 * LATITUDE_FIELD) by (clear - Hy0'; unfold_cells; unfold inject_Z; lra).
  destruct (encode_step y0 LATITUDE_FIELD 19 eq_refl Hy0 Hny0) as (Bf1 & Ly1 & Uy1).
  rewrite <- Ef1 in Bf1, Ly1, Uy1.
  rewrite <- Ey1 in Ly1, Uy1.
  assert (Hny1 : y1 < inject_Z 10 * LATITUDE_SQUARE) by (clear - Uy1; revert Uy1; unfold_cells; unfold inject_Z; lra).
  destruct (encode_step y1 LATITUDE_SQUARE 10 eq_refl Ly1 Hny1) as (Bs3 & Ly2 & Uy2).
  rewrite <- Es3 in Bs3, Ly2, Uy2.
  rewrite <- Ey2 in Ly2, Uy2.
  assert (Hny2 : y2 < inject_Z 24 * LATITUDE_SUBSQUARE) by (clear - Uy2; revert Uy2; unfold_cells; unfold inject_Z; lra).
  destruct (encode_step y2 LATITUDE_SUBSQUARE 24 eq_refl Ly2 Hny2) as (Bu5 & Ly3 & Uy3).
  rewrite <- Eu5 in Bu5, Ly3, Uy3.
  rewrite <- Ey3 in Ly3, Uy3.
  assert (Hny3 : y3 < inject_Z 10 * LATITUDE_EXTSQUARE) by (clear - Uy3; revert Uy3; unfold_cells; unfold inject_Z; lra).
  destruct (encode_step y3 LATITUDE_EXTSQUARE 10 eq_refl Ly3 Hny3) as (Be7 & Ly4 & Uy4).
  rewrite <- Ee7 in Be7, Ly4, Uy4.
  exists f0, f1, s2, s3, u4, u5, e6, e7,
    (x3 - inject_Z e6 * LONGITUDE_EXTSQUARE),
    (y3 - inject_Z e7 * LATITUDE_EXTSQUARE).
  assert (Qx1 : x1 == x0 - inject_Z f0 * 20) by (rewrite Ex1; reflexivity).
  assert (Qx2 : x2 == x1 - inject_Z s2 * 2)
    by (rewrite Ex2; unfold_cells; field).
  assert (Qx3 : x3 == x2 - inject_Z u4 * (1 # 12))
    by (rewrite Ex3; unfold_cells; field).
  assert (Qy1 : y1 == y0 - inject_Z f1 * 10) by (rewrite Ey1; reflexivity).
  assert (Qy2 : y2 == y1 - inject_Z s3 * 1)
    by (rewrite Ey2; unfold_cells; field).
  assert (Qy3 : y3 == y2 - inject_Z u5 * (1 # 24))
    by (rewrite Ey3; unfold_cells; field).
  assert (Qx0 : x0 == lon + 180) by (rewrite Ex0; reflexivity).
  assert (Qy0 : y0 == lat + 90) by (rewrite Ey0; reflexivity).
  assert (Sq : to_grid_locator lat lon "square" = Ok (text4 f0 f1 s2 s3 EmptyString)
               /\ to_grid_locator lat lon "subsquare"
                  = Ok (text4 f0 f1 s2 s3 (text2 97 u4 u5 EmptyString))
               /\ to_grid_locator lat lon "extsquare"
                  = Ok (text4 f0 f1 s2 s3
                          (text2 97 u4 u5 (text2 48 e6 e7 EmptyString)))).
  { repeat split; unfold to_grid_locator;
      cbn [String.eqb Ascii.eqb Bool.eqb orb negb andb];
      rewrite !Qle_bool_true by assumption;
      cbn [negb andb]; cbv zeta;
      rewrite <- Ex0, <- Ef0, <- Ex1, <- Es2, <- Ey0, <- Ef1, <- Ey1, <- Es3;
      rewrite ?chr_ok by lia; cbn [bind];
      rewrite <- ?Ex2, <- ?Eu4, <- ?Ey2, <- ?Eu5;
      rewrite ?chr_ok by lia; cbn [bind];
      rewrite <- ?Ex3, <- ?Ee6, <- ?Ey3, <- ?Ee7;
      rewrite !py_str_digit by lia; reflexivity. }
  clear Ex0 Ef0 Ex1 Es2 Ex2 Eu4 Ex3 Ee6 Ey0 Ef1 Ey1 Es3 Ey2 Eu5 Ey3 Ee7.
  unfold_cells.
  assert (F0 : inject_Z f0 * 20 <= x0 /\ x0 < inject_Z f0 * 20 + 20)
    by (split; lra).
  assert (F1 : inject_Z f1 * 10 <= y0 /\ y0 < inject_Z f1 * 10 + 10)
    by (split; lra).
  split; [|split; [|split; [|split; [|split; [|exact Sq]]]]].
  - split; [lia|split].
    + intros Hlt. apply Z.lt_succ_r. rewrite Zlt_Qlt. unfold inject_Z at 2.
      change (Z.succ 17 # 1) with 18. lra.
    + intros Heq. assert (17 < f0)%Z; [|lia].
      rewrite Zlt_Qlt. unfold inject_Z at 1. lra.
  - split; [lia|split].
    + intros Hlt. apply Z.lt_succ_r. rewrite Zlt_Qlt. unfold inject_Z at 2.
      change (Z.succ 17 # 1) with 18. lra.
    + intros Heq. assert (17 < f1)%Z; [|lia].
      rewrite Zlt_Qlt. unfold inject_Z at 1. lra.
  - lia.
  - split; [|split]; lra.
  - split; [|split]; lra.
Qed.

(** ** The decoder in closed form *)

Lemma decode4 (c0 c1 c2 c3 : ascii) (f0 f1 s2 s3 : Z) :
  (ord c0 - 65)%Z = f0 -> (ord c1 - 65)%Z = f1 ->
  int_of_char c2 = Ok s2 -> int_of_char c3 = Ok s3 ->
  (0 <= f0 <= 17)%Z -> (0 <= f1 <= 17)%Z -> (0 <= s2 <= 9)%Z -> (0 <= s3 <= 9)%Z ->
  exists lat lon,
    from_grid_locator (String c0 (String c1 (String c2 (String c3 EmptyString))))
    = Ok (lat, lon)
    /\ lat == 10 * inject_Z f1 + inject_Z s3 + (1 # 48) - 90
    /\ lon == 20 * inject_Z f0 + 2 * inject_Z s2 + (1 # 24) - 180.
Proof.
  intros E0 E1 E2 E3 B0 B1 B2 B3.
  unfold from_grid_locator.
  cbn [String.length Nat.eqb Nat.leb orb negb andb list_ascii_of_string nth bind].
  rewrite E0, E1, E2, E3.
  cbn [bind app zth nth].
  rewrite !in_range_true by assumption.
  cbn [negb orb andb].
  eexists; eexists; split; [reflexivity|].
  unfold_cells. split; field.
Qed.

Lemma decode6 (c0 c1 c2 c3 c4 c5 : ascii) (f0 f1 s2 s3 u4 u5 : Z) :
  (ord c0 - 65)%Z = f0 -> (ord c1 - 65)%Z = f1 ->
  int_of_char c2 = Ok s2 -> int_of_char c3 = Ok s3 ->
  (ord (lower c4) - 97)%Z = u4 -> (ord (lower c5) - 97)%Z = u5 ->
  (0 <= f0 <= 17)%Z -> (0 <= f1 <= 17)%Z -> (0 <= s2 <= 9)%Z -> (0 <= s3 <= 9)%Z ->
  (0 <= u4 <= 23)%Z -> (0 <= u5 <= 23)%Z ->
  exists lat lon,
    from_grid_locator
      (String c0 (String c1 (String c2 (String c3
        (String c4 (String c5 EmptyString))))))
    = Ok (lat, lon)
    /\ lat == 10 * inject_Z f1 + inject_Z s3 + (1 # 24) * inject_Z u5
              + (1 # 48) - 90
    /\ lon == 20 * inject_Z f0 + 2 * inject_Z s2 + (1 # 12) * inject_Z u4
              + (1 # 24) - 180.
Proof.
  intros E0 E1 E2 E3 E4 E5 B0 B1 B2 B3 B4 B5.
  unfold from_grid_locator.
  cbn [String.length Nat.eqb Nat.leb orb negb andb list_ascii_of_string nth bind].
  rewrite E0, E1, E2, E3, E4, E5.
  cbn [bind app zth nth].
  rewrite !in_range_true by assumption.
  cbn [negb orb andb].
  eexists; eexists; split; [reflexivity|].
  unfold_cells. split; field.
Qed.

Lemma decode8 (c0 c1 c2 c3 c4 c5 c6 c7 : ascii) (f0 f1 s2 s3 u4 u5 e6 e7 : Z) :
  (ord c0 - 65)%Z = f0 -> (ord c1 - 65)%Z = f1 ->
  int_of_char c2 = Ok s2 -> int_of_char c3 = Ok s3 ->
  (ord (lower c4) - 97)%Z = u4 -> (ord (lower c5) - 97)%Z = u5 ->
  int_of_char c6 = Ok e6 -> int_of_char c7 = Ok e7 ->
  (0 <= f0 <= 17)%Z -> (0 <= f1 <= 17)%Z -> (0 <= s2 <= 9)%Z -> (0 <= s3 <= 9)%Z ->
  (0 <= u4 <= 23)%Z -> (0 <= u5 <= 23)%Z -> (0 <= e6 <= 9)%Z -> (0 <= e7 <= 9)%Z ->
  exists lat lon,
    from_grid_locator
      (String c0 (String c1 (String c2 (String c3
        (String c4 (String c5 (String c6 (String c7 EmptyString))))))))
    = Ok (lat, lon)
    /\ lat == 10 * inject_Z f1 + inject_Z s3 + (1 # 24) * inject_Z u5
              + (1 # 240) * inject_Z e7 + (1 # 480) - 90
    /\ lon == 20 * inject_Z f0 + 2 * inject_Z s2 + (1 # 12) * inject_Z u4
              + (1 # 120) * inject_Z e6 + (1 # 240) - 180.
Proof.
  intros E0 E1 E2 E3 E4 E5 E6 E7 B0 B1 B2 B3 B4 B5 B6 B7.
  unfold from_grid_locator.
  cbn [String.length Nat.eqb Nat.leb orb negb andb list_ascii_of_string nth bind].
  rewrite E0, E1, E2, E3, E4, E5, E6, E7.
  cbn [bind app zth nth].
  rewrite !in_range_true by assumption.
  cbn [negb orb andb].
  eexists; eexists; split; [reflexivity|].
  unfold_cells. split; field.
Qed.


(** ** Decoding what the encoder emitted *)









Lemma letter_S : letter 65 18 = "S"%char.
Proof. reflexivity. Qed.



(** ** Round trip through the locator *)





(** ** The decoder against the cells of the specification *)

Lemma field_char_index (c : ascii) :
  spec_field_char c = true -> (0 <= ord c - 65 <= 17)%Z.
Proof.
  unfold spec_field_char, in_range. intros H.
  apply andb_true_iff in H. destruct H as [H1 H2].
  apply Z.leb_le in H1, H2. lia.
Qed.

Lemma digit_char_index (c : ascii) :
  spec_digit_char c = true ->
  int_of_char c = Ok (ord c - 48)%Z /\ (0 <= ord c - 48 <= 9)%Z.
Proof.
  unfold spec_digit_char, in_range. intros H.
  apply andb_true_iff in H. destruct H as [H1 H2].
  apply Z.leb_le in H1, H2. split; [|lia].
  unfold int_of_char.
  replace (0 <=? ord c - 48)%Z with true by (symmetry; apply Z.leb_le; lia).
  replace (ord c - 48 <=? 9)%Z with true by (symmetry; apply Z.leb_le; lia).
  reflexivity.
Qed.

Lemma subsquare_char_index (c : ascii) :
  spec_subsquare_char c = true ->
  (ord (lower c) - 97)%Z = (ord c - 97)%Z /\ (0 <= ord c - 97 <= 23)%Z.
Proof.
  unfold spec_subsquare_char, in_range. intros H.
  apply andb_true_iff in H. destruct H as [H1 H2].
  apply Z.leb_le in H1, H2. split; [|lia].
  unfold lower.
  replace (ord c <=? 90)%Z with false by (symmetry; apply Z.leb_gt; lia).
  rewrite andb_false_r. reflexivity.
Qed.

(** C2, as the code has it: on a valid locator [from_grid_locator] returns
    the south-west corner of the smallest resolved cell plus half an
    extsquare for eight characters and plus five extsquares (half a
    subsquare) for four or six; that is the centre of the cell for six and
    eight characters, and not for four. *)
Theorem from_grid_locator_cell (s : string) :
  spec_valid_locator s = true ->
  exists lat lon,
    from_grid_locator s = Ok (lat, lon)
    /\ lat - fst (spec_cell_corner s)
       == (if Nat.eqb (String.length s) 8 then LATITUDE_EXTSQUARE / 2
           else LATITUDE_EXTSQUARE * 5)
    /\ lon - snd (spec_cell_corner s)
       == (if Nat.eqb (String.length s) 8 then LONGITUDE_EXTSQUARE / 2
           else LONGITUDE_EXTSQUARE * 5)
    /\ (String.length s <> 4%nat ->
        lat == fst (spec_cell_center s) /\ lon == snd (spec_cell_center s))
    /\ (String.length s = 4%nat ->
        lat == fst (spec_cell_corner s) + LATITUDE_SUBSQUARE / 2
        /\ lon == snd (spec_cell_corner s) + LONGITUDE_SUBSQUARE / 2).
Proof.
  intros H. unfold spec_valid_locator in H.
  destruct s as [|c0 [|c1 [|c2 [|c3 [|c4 [|c5 [|c6 [|c7 [|c8 s]]]]]]]]];
    cbn [list_ascii_of_string] in H; try discriminate H;
    repeat match goal with
      | H : (_ && _)%bool = true |- _ =>
          apply andb_true_iff in H; destruct H
      end;
    repeat match goal with
      | H : spec_field_char _ = true |- _ => apply field_char_index in H
      | H : spec_digit_char _ = true |- _ =>
          apply digit_char_index in H; destruct H
      | H : spec_subsquare_char _ = true |- _ =>
          apply subsquare_char_index in H; destruct H
      end.
  - destruct (decode4 c0 c1 c2 c3 (ord c0 - 65) (ord c1 - 65)
                (ord c2 - 48) (ord c3 - 48))
      as (la & lo & D & Ela & Elo); try assumption; try reflexivity.
    exists la, lo. split; [exact D|].
    unfold spec_cell_center, spec_cell_corner, spec_cell_size.
    cbn [String.length Nat.eqb list_ascii_of_string nth_error fst snd].
    unfold_cells. unfold Qdiv. change (/ 2) with (1 # 2).
    split; [lra | split; [lra | split]].
    + intros N; exfalso; apply N; reflexivity.
    + intros _; split; lra.
  - destruct (decode6 c0 c1 c2 c3 c4 c5 (ord c0 - 65) (ord c1 - 65)
                (ord c2 - 48) (ord c3 - 48) (ord c4 - 97) (ord c5 - 97))
      as (la & lo & D & Ela & Elo); try assumption; try reflexivity.
    exists la, lo. split; [exact D|].
    unfold spec_cell_center, spec_cell_corner, spec_cell_size.
    cbn [String.length Nat.eqb list_ascii_of_string nth_error fst snd].
    unfold_cells. unfold Qdiv. change (/ 2) with (1 # 2).
    split; [lra | split; [lra | split]].
    + intros _; split; lra.
    + intros N; discriminate N.
  - destruct (decode8 c0 c1 c2 c3 c4 c5 c6 c7 (ord c0 - 65) (ord c1 - 65)
                (ord c2 - 48) (ord c3 - 48) (ord c4 - 97) (ord c5 - 97)
                (ord c6 - 48) (ord c7 - 48))
      as (la & lo & D & Ela & Elo); try assumption; try reflexivity.
    exists la, lo. split; [exact D|].
    unfold spec_cell_center, spec_cell_corner, spec_cell_size.
    cbn [String.length Nat.eqb list_ascii_of_string nth_error fst snd].
    unfold_cells. unfold Qdiv. change (/ 2) with (1 # 2).
    split; [lra | split; [lra | split]].
    + intros _; split; lra.
    + intros N; discriminate N.
Qed.

Lemma from_grid_locator_cell_witness :
  exists lat lon,
    from_grid_locator "IO92va" = Ok (lat, lon)
    /\ lat - fst (spec_cell_corner "IO92va")
       == (if Nat.eqb (String.length "IO92va") 8 then LATITUDE_EXTSQUARE / 2
           else LATITUDE_EXTSQUARE * 5)
    /\ lon - snd (spec_cell_corner "IO92va")
       == (if Nat.eqb (String.length "IO92va") 8 then LONGITUDE_EXTSQUARE / 2
           else LONGITUDE_EXTSQUARE * 5)
    /\ (String.length "IO92va" <> 4%nat ->
        lat == fst (spec_cell_center "IO92va")
        /\ lon == snd (spec_cell_center "IO92va"))
    /\ (String.length "IO92va" = 4%nat ->
        lat == fst (spec_cell_corner "IO92va") + LATITUDE_SUBSQUARE / 2
        /\ lon == snd (spec_cell_corner "IO92va") + LONGITUDE_SUBSQUARE / 2).
Proof. apply (from_grid_locator_cell "IO92va"). reflexivity. Defined.

(** C2 as stated fails on four characters: IO92 is valid, and its decoding
    is not the centre (52.5, -1) of the square. *)
Lemma from_grid_locator_center_counterexample :
  spec_valid_locator "IO92" = true
  /\ ~ (exists lat lon,
           from_grid_locator "IO92" = Ok (lat, lon)
           /\ lat == fst (spec_cell_center "IO92")
           /\ lon == snd (spec_cell_center "IO92")).
Proof.
  split; [reflexivity|].
  intros (la & lo & D & H1 & H2).
  vm_compute in D. injection D as <- <-.
  vm_compute in H1. discriminate H1.
Qed.

(** ** Degrees, minutes and seconds *)

Example to_dms_doc1 : to_dms (52015 # 1000) "dms" = Ok (Dms 52 0 54).
Proof. vm_compute. reflexivity. Qed.

Example to_dms_doc2 : to_dms (-221 # 1000) "dms" = Ok (Dms 0 (-13) (-15)).
Proof. vm_compute. reflexivity. Qed.

Example to_dms_doc3 :
  exists m, to_dms (-221 # 1000) "dm" = Ok (Dm 0 m) /\ m == - (1325 # 100).
Proof. eexists. split; [vm_compute; reflexivity | reflexivity]. Qed.

Example from_iso6709_paris :
  exists la lo, from_iso6709 "+4852+00220/" = Ok (la, lo, None)
                /\ la == 48 + (52 # 60) /\ lo == 2 + (20 # 60).
Proof.
  eexists; eexists. split; [vm_compute; reflexivity | split; reflexivity].
Qed.

Example from_iso6709_fuji :
  exists la lo al, from_iso6709 "+352139+1384339+3776/" = Ok (la, lo, Some al)
                   /\ la == 35 + (21 # 60) + (39 # 3600)
                   /\ lo == 138 + (43 # 60) + (39 # 3600) /\ al == 3776.
Proof.
  eexists; eexists; eexists.
  split; [vm_compute; reflexivity | repeat split; reflexivity].
Qed.

Example from_iso6709_broken :
  from_iso6709 "+35.658632+1/"
  = Raise (ValueError "Incorrect format for longitude `+1'").
Proof. vm_compute. reflexivity. Qed.

Example to_iso6709_everest :
  to_iso6709 (275916 # 10000) (86564 # 1000) (Some 8850) "dd" 4
  = Ok "+27.5916+086.5640+8850/".
Proof. vm_compute. reflexivity. Qed.

Example to_iso6709_paris :
  to_iso6709 (48 + (52 # 60)) (2 + (20 # 60)) None "dm" 4 = Ok "+4852+00220/".
Proof. vm_compute. reflexivity. Qed.

Example to_iso6709_fuji :
  to_iso6709 (35 + (21 # 60) + (39 # 3600)) (138 + (43 # 60) + (39 # 3600))
             (Some 3776) "dms" 4
  = Ok "+352139+1384339+3776/".
Proof. vm_compute. reflexivity. Qed.

Example to_iso6709_south_pole :
  to_iso6709 (-90) 0 (Some 2800) "d" 4 = Ok "-90+000+2800/".
Proof. vm_compute. reflexivity. Qed.

Lemma py_int_opp (x : Q) : py_int (- x) = (- py_int x)%Z.
Proof. destruct x as [n d]; unfold py_int; simpl. apply Z.quot_opp_l. lia. Qed.

Lemma py_int_comp (x y : Q) : x == y -> py_int x = py_int y.
Proof.
  intros E. destruct (Qlt_le_dec x 0) as [N|P].
  - assert (Hx : py_int x = (- py_int (- x))%Z) by (rewrite py_int_opp; lia).
    assert (Hy : py_int y = (- py_int (- y))%Z) by (rewrite py_int_opp; lia).
    rewrite Hx, Hy, !py_int_floor by lra. f_equal. apply Qfloor_comp. lra.
  - rewrite !py_int_floor by lra. apply Qfloor_comp. exact E.
Qed.

Lemma Qeq_bool_true (x y : Q) : x == y -> Qeq_bool x y = true.
Proof. intros H; apply Qeq_bool_iff; exact H. Qed.

Lemma Qeq_bool_false (x y : Q) : ~ x == y -> Qeq_bool x y = false.
Proof.
  intros H. destruct (Qeq_bool x y) eqn:E; [|reflexivity].
  apply Qeq_bool_iff in E. contradiction.
Qed.

(** C9: [to_dms] divides by [abs(angle)] before anything else, so the angle
    zero raises ZeroDivisionError whatever the style. *)
Theorem to_dms_zero_raises (angle : Q) (style : string) :
  angle == 0 -> to_dms angle style = Raise ZeroDivisionError.
Proof.
  intros H. unfold to_dms, py_div.
  rewrite Qeq_bool_true; [reflexivity|].
  rewrite H. reflexivity.
Qed.

Lemma to_dms_zero_raises_witness :
  to_dms 0 "dms" = Raise ZeroDivisionError.
Proof. apply (to_dms_zero_raises 0 "dms"). reflexivity. Defined.

(** The quantities [to_dms] computes from a positive magnitude. *)
Lemma dms_magnitude (a : Q) :
  0 < a ->
  exists (m : Z) (S : Q),
    py_divmod (a * 3600) 60 = Ok (inject_Z m, S)
    /\ py_divmod (inject_Z m) 60
       = Ok (inject_Z (Qfloor (inject_Z m / 60)),
             inject_Z m - 60 * inject_Z (Qfloor (inject_Z m / 60)))
    /\ a * 3600 == 60 * inject_Z m + S
    /\ 0 <= S /\ S < 60
    /\ (0 <= Qfloor (inject_Z m / 60))%Z
    /\ (0 <= m - 60 * Qfloor (inject_Z m / 60) < 60)%Z
    /\ inject_Z (py_int S) <= S /\ S < inject_Z (py_int S) + 1
    /\ (0 <= py_int S)%Z.
Proof.
  intros Ha.
  set (A := a * 3600).
  assert (HA : 0 < A) by (unfold A; lra).
  set (m := Qfloor (A / 60)).
  assert (Hq : A == (A / 60) * 60) by (field).
  pose proof (Qfloor_le (A / 60)) as L1.
  pose proof (Qlt_floor (A / 60)) as U1.
  rewrite inject_Z_plus in U1. change (inject_Z 1) with 1 in U1.
  fold m in L1, U1.
  assert (Hm : (0 <= m)%Z).
  { unfold m. change 0%Z with (Qfloor 0). apply Qfloor_resp_le.
    apply Qle_shift_div_l; lra. }
  set (d := Qfloor (inject_Z m / 60)).
  pose proof (Qfloor_le (inject_Z m / 60)) as L2.
  pose proof (Qlt_floor (inject_Z m / 60)) as U2.
  rewrite inject_Z_plus in U2. change (inject_Z 1) with 1 in U2.
  fold d in L2, U2.
  assert (Hm' : inject_Z m == (inject_Z m / 60) * 60) by (field).
  assert (Hd : (0 <= d)%Z).
  { unfold d. change 0%Z with (Qfloor 0). apply Qfloor_resp_le.
    apply Qle_shift_div_l; [lra|].
    rewrite Qmult_0_l. change 0 with (inject_Z 0). rewrite <- Zle_Qle. exact Hm. }
  assert (Hr : (0 <= m - 60 * d < 60)%Z).
  { assert (Q1 : inject_Z (60 * d) <= inject_Z m).
    { rewrite inject_Z_mult. change (inject_Z 60) with 60.
      set (q := inject_Z m / 60) in *. lra. }
    assert (Q2 : inject_Z m < inject_Z (60 * d + 60)).
    { rewrite inject_Z_plus, inject_Z_mult. change (inject_Z 60) with 60.
      set (q := inject_Z m / 60) in *. lra. }
    rewrite <- Zle_Qle in Q1. rewrite <- Zlt_Qlt in Q2. lia. }
  set (S := A - 60 * inject_Z m).
  assert (HS : 0 <= S /\ S < 60).
  { unfold S. set (q := A / 60) in *. split; lra. }
  destruct HS as [HS1 HS2].
  exists m, S. unfold py_divmod.
  change (Qeq_bool 60 0) with false. cbv zeta. fold A m S d.
  split; [reflexivity|]. split; [reflexivity|].
  split; [unfold S; lra|].
  split; [exact HS1|]. split; [exact HS2|].
  split; [exact Hd|]. split; [exact Hr|].
  rewrite (py_int_floor S HS1).
  pose proof (Qfloor_le S) as L3. pose proof (Qlt_floor S) as U3.
  rewrite inject_Z_plus in U3. change (inject_Z 1) with 1 in U3.
  split; [exact L3|]. split; [exact U3|].
  change 0%Z with (Qfloor 0). apply Qfloor_resp_le. exact HS1.
Qed.

Lemma dms_sign (x : Q) :
  ~ x == 0 ->
  py_div x (Qabs x) = Ok (x / Qabs x)
  /\ ((0 < x /\ Qabs x == x /\ py_int (x / Qabs x) = 1%Z)
      \/ (x < 0 /\ Qabs x == - x /\ py_int (x / Qabs x) = (-1)%Z)).
Proof.
  intros Hx.
  assert (Hcases : 0 < x \/ x < 0).
  { destruct (Qlt_le_dec 0 x) as [P|N]; [left; exact P|right].
    destruct (Qlt_le_dec x 0) as [N'|P']; [exact N'|].
    exfalso; apply Hx; lra. }
  destruct Hcases as [P|N].
  - assert (Ea : Qabs x == x) by (apply Qabs_pos; lra).
    split.
    + unfold py_div. rewrite Qeq_bool_false; [reflexivity|]. lra.
    + left. split; [exact P|split; [exact Ea|]].
      rewrite (py_int_comp _ 1); [reflexivity|].
      rewrite Ea. field. lra.
  - assert (Ea : Qabs x == - x) by (apply Qabs_neg; lra).
    split.
    + unfold py_div. rewrite Qeq_bool_false; [reflexivity|]. lra.
    + right. split; [exact N|split; [exact Ea|]].
      rewrite (py_int_comp _ (-1)); [reflexivity|].
      rewrite Ea. field. lra.
Qed.



(** ** ISO 6709 *)



Lemma string_app_assoc (a b c : string) : (a ++ b) ++ c = a ++ (b ++ c).
Proof. induction a as [|x a IH]; simpl; [reflexivity | rewrite IH; reflexivity]. Qed.

(** Whenever [to_iso6709] returns, the text ends with a slash; with no
    altitude, or one that is not zero, the altitude text of the
    specification stands just before it. *)
Lemma to_iso6709_suffix (latitude longitude : Q) (altitude : option Q)
      (format : string) (precision : Z) (text : string) :
  to_iso6709 latitude longitude altitude format precision = Ok text ->
  (exists body, text = body ++ "/")
  /\ ((forall v, altitude = Some v -> ~ v == 0) ->
      exists prefix, text = prefix ++ spec_altitude_text altitude ++ "/").
Proof.
  unfold to_iso6709.
  match goal with |- bind ?m _ = _ -> _ => destruct m as [t|e] end;
    cbn [bind]; [|discriminate].
  intros H. injection H as <-.
  split; [eexists; reflexivity|].
  intros Hnz. exists t.
  destruct altitude as [v|]; [|reflexivity].
  rewrite (Qeq_bool_false v 0) by (apply Hnz; reflexivity).
  unfold spec_altitude_text. cbn [negb andb].
  destruct (Qeq_bool (inject_Z (py_int v)) v); apply string_app_assoc.
Qed.

(** C8, at the altitude 0.0: the altitude is supplied, the specification has
    the text +0 appended, and [to_iso6709] appends nothing, because its
    tests [if altitude] take zero for an absent altitude. *)
Theorem to_iso6709_drops_zero_altitude :
  to_iso6709 0 0 (Some 0) "d" 4 = Ok "+00+000/"
  /\ spec_altitude_text (Some 0) = "+0"
  /\ to_iso6709 0 0 None "d" 4 = Ok "+00+000/".
Proof. repeat split; vm_compute; reflexivity. Qed.

(** * Sunrise and sunset *)

Local Open Scope R_scope.

Lemma Int_part_unique (x : R) (z : Z) :
  IZR z <= x -> x < IZR z + 1 -> Int_part x = z.
Proof. intros H1 H2. symmetry. apply Int_part_spec. lra. Qed.

Lemma r_int_nonneg (x : R) (z : Z) :
  0 <= x -> IZR z <= x -> x < IZR z + 1 -> r_int x = z.
Proof.
  intros H0 H1 H2. unfold r_int.
  destruct (Rle_dec 0 x) as [_|N]; [|contradiction].
  apply Int_part_unique; assumption.
Qed.

Lemma r_int_neg (x : R) (z : Z) :
  x < 0 -> IZR z - 1 < x -> x <= IZR z -> r_int x = z.
Proof.
  intros H0 H1 H2. unfold r_int.
  destruct (Rle_dec 0 x) as [P|_]; [lra|].
  rewrite (Int_part_unique (- x) (- z)%Z); [lia | rewrite opp_IZR; lra
                                           | rewrite opp_IZR; lra].
Qed.

(** For a negative real, [int] is the ceiling. *)
Lemma r_int_neg_bounds (x : R) :
  x < 0 -> IZR (r_int x) - 1 < x /\ x <= IZR (r_int x) /\ (r_int x <= 0)%Z.
Proof.
  intros H0. unfold r_int.
  destruct (Rle_dec 0 x) as [P|_]; [lra|].
  destruct (base_Int_part (- x)) as [B1 B2].
  rewrite opp_IZR.
  split; [lra|split; [lra|]].
  assert (0 <= Int_part (- x))%Z; [|lia].
  apply le_IZR. apply Rnot_lt_le. intros C.
  assert (IZR (Int_part (- x)) <= -1).
  { apply lt_IZR in C. apply IZR_le. lia. }
  lra.
Qed.

Lemma r_mod_own_int (x : R) :
  x < 0 -> (r_int x < 0)%Z -> r_mod x (IZR (r_int x)) = Ok (x - IZR (r_int x)).
Proof.
  intros H0 Hh.
  destruct (r_int_neg_bounds x H0) as (B1 & B2 & _).
  set (h := r_int x) in *.
  assert (Hh' : IZR h <= -1) by (apply IZR_le; lia).
  unfold r_mod. destruct (Req_dec_T (IZR h) 0) as [E|_]; [lra|].
  f_equal. unfold r_floor.
  rewrite (Int_part_unique (x / IZR h) 1).
  - lra.
  - apply Rmult_le_reg_r with (- IZR h); [lra|].
    replace (x / IZR h * - IZR h) with (- x) by (field; lra). lra.
  - apply Rmult_lt_reg_r with (- IZR h); [lra|].
    replace (x / IZR h * - IZR h) with (- x) by (field; lra). lra.
Qed.

(** The clock of a negative local time. *)
Lemma local_clock_below_zero (localT : R) :
  localT < 0 ->
  let hour0 := r_int localT in
  let minute0 := r_int (60 * (localT - IZR hour0)) in
  local_clock localT
  = datetime_time (if (hour0 <? 0)%Z then (hour0 + 23)%Z else hour0)
                  (if (minute0 <? 0)%Z then (minute0 + 60)%Z else minute0).
Proof.
  intros H0 hour0 minute0. unfold local_clock. fold hour0.
  destruct (Z.eqb_spec hour0 0) as [E|N].
  - cbn [bind]. unfold minute0. rewrite E.
    replace (localT - 0) with localT by lra. reflexivity.
  - destruct (r_int_neg_bounds localT H0) as (_ & _ & B3). fold hour0 in B3.
    unfold hour0 at 1. rewrite r_mod_own_int by (fold hour0; lia || assumption).
    cbn [bind]. reflexivity.
Qed.

(** The clock of a local time of one hour or more. *)
Lemma local_clock_above_one (localT : R) (h mi : Z) :
  (1 <= h <= 23)%Z -> (0 <= mi <= 59)%Z ->
  IZR h <= localT -> localT < IZR h + 1 ->
  IZR mi <= 60 * (localT - IZR h) -> 60 * (localT - IZR h) < IZR mi + 1 ->
  local_clock localT = Ok (mktime h mi).
Proof.
  intros Hh Hm L U Lm Um.
  assert (Ph : 1 <= IZR h) by (apply IZR_le; lia).
  assert (Pm : 0 <= IZR mi) by (apply IZR_le; lia).
  unfold local_clock.
  rewrite (r_int_nonneg localT h) by lra.
  destruct (Z.eqb_spec h 0) as [E|_]; [lia|].
  unfold r_mod. destruct (Req_dec_T (IZR h) 0) as [E|_]; [lra|].
  cbn [bind]. unfold r_floor.
  rewrite (Int_part_unique (localT / IZR h) 1).
  - replace (localT - IZR h * 1) with (localT - IZR h) by lra.
    rewrite (r_int_nonneg _ mi) by lra.
    destruct (Z.ltb_spec h 0) as [C|_]; [lia|].
    destruct (Z.ltb_spec mi 0) as [C|_]; [lia|].
    unfold datetime_time. rewrite !in_range_true by lia. reflexivity.
  - apply Rmult_le_reg_r with (IZR h); [lra|].
    replace (localT / IZR h * IZR h) with localT by (field; lra). lra.
  - apply Rmult_lt_reg_r with (IZR h); [lra|].
    replace (localT / IZR h * IZR h) with localT by (field; lra). nra.
Qed.

(** C3: on a negative local time the clock is built from the truncated hour
    plus a fixed 23 and the truncated minute plus a fixed 60; that is not
    the reduction modulo 24 hours, as the local times -2 and -1/2 show. *)
Theorem local_clock_negative :
  (forall localT : R,
      localT < 0 ->
      let hour0 := r_int localT in
      let minute0 := r_int (60 * (localT - IZR hour0)) in
      local_clock localT
      = datetime_time (if (hour0 <? 0)%Z then (hour0 + 23)%Z else hour0)
                      (if (minute0 <? 0)%Z then (minute0 + 60)%Z else minute0))
  /\ (local_clock (-2) = Ok (mktime 21 0)
      /\ spec_clock_mod24 (-2) = mktime 22 0)
  /\ (local_clock (-1 / 2) = Ok (mktime 0 30)
      /\ spec_clock_mod24 (-1 / 2) = mktime 23 30).
Proof.
  split; [exact local_clock_below_zero|].
  assert (I2 : r_int (-2) = (-2)%Z) by (apply r_int_neg; simpl; lra).
  assert (Ih : r_int (-1 / 2) = 0%Z) by (apply r_int_neg; simpl; lra).
  split; split.
  - rewrite local_clock_below_zero by lra. cbv zeta. rewrite I2.
    replace (60 * (-2 - IZR (-2))) with 0 by (simpl; lra).
    rewrite (r_int_nonneg 0 0) by (simpl; lra). reflexivity.
  - unfold spec_clock_mod24, r_floor.
    rewrite (Int_part_unique (-2 / 24) (-1)) by (simpl; lra).
    replace (-2 - 24 * IZR (-1)) with 22 by (simpl; lra).
    rewrite (Int_part_unique 22 22) by (simpl; lra).
    replace (60 * (22 - IZR 22)) with 0 by (simpl; lra).
    rewrite (Int_part_unique 0 0) by (simpl; lra). reflexivity.
  - rewrite local_clock_below_zero by lra. cbv zeta. rewrite Ih.
    replace (60 * (-1 / 2 - IZR 0)) with (-30) by (simpl; lra).
    rewrite (r_int_neg (-30) (-30)) by (simpl; lra). reflexivity.
  - unfold spec_clock_mod24, r_floor.
    rewrite (Int_part_unique (-1 / 2 / 24) (-1)) by (simpl; lra).
    replace (-1 / 2 - 24 * IZR (-1)) with (47 / 2) by (simpl; lra).
    rewrite (Int_part_unique (47 / 2) 23) by (simpl; lra).
    replace (60 * (47 / 2 - IZR 23)) with 30 by (simpl; lra).
    rewrite (Int_part_unique 30 30) by (simpl; lra). reflexivity.
Qed.

Lemma local_clock_negative_witness :
  local_clock (-7 / 2)
  = datetime_time
      (if (r_int (-7 / 2) <? 0)%Z then (r_int (-7 / 2) + 23)%Z
       else r_int (-7 / 2))
      (if (r_int (60 * (-7 / 2 - IZR (r_int (-7 / 2)))) <? 0)%Z
       then (r_int (60 * (-7 / 2 - IZR (r_int (-7 / 2)))) + 60)%Z
       else r_int (60 * (-7 / 2 - IZR (r_int (-7 / 2))))).
Proof. apply (proj1 local_clock_negative (-7 / 2)). lra. Defined.

Local Close Scope R_scope.

(** ** Soundness of the interval operations *)

(** Names every [Q2R q], so that linear arithmetic sees a plain variable. *)
Ltac hide_Q2R :=
  repeat match goal with
    | |- context [Q2R ?q] =>
        let v := fresh "r" in set (v := Q2R q) in *; clearbody v
    | H : context [Q2R ?q] |- _ =>
        let v := fresh "r" in set (v := Q2R q) in *; clearbody v
    end.

Lemma rnd_dn_le (q : Q) : (Q2R (rnd_dn q) <= Q2R q)%R.
Proof.
  apply Qle_Rle. unfold rnd_dn.
  pose proof (Qfloor_le (q * inject_Z (Zpos grain))) as H.
  set (f := Qfloor _) in *.
  assert (E : f # grain == inject_Z f / inject_Z (Zpos grain)).
  { unfold Qeq, Qdiv, Qmult, Qinv, inject_Z; simpl. lia. }
  rewrite E. apply Qle_shift_div_r; [reflexivity | exact H].
Qed.

Lemma rnd_up_ge (q : Q) : (Q2R q <= Q2R (rnd_up q))%R.
Proof.
  apply Qle_Rle. unfold rnd_up.
  pose proof (Qle_ceiling (q * inject_Z (Zpos grain))) as H.
  set (f := Qceiling _) in *.
  assert (E : f # grain == inject_Z f / inject_Z (Zpos grain)).
  { unfold Qeq, Qdiv, Qmult, Qinv, inject_Z; simpl. lia. }
  rewrite E. apply Qle_shift_div_l; [reflexivity | exact H].
Qed.

Lemma qmin_l (a b : Q) : (Q2R (qmin a b) <= Q2R a)%R.
Proof.
  unfold qmin. destruct (Qle_bool a b) eqn:E; [lra|].
  apply Qle_Rle. destruct (Qlt_le_dec b a) as [H|H]; [lra|].
  apply Qle_bool_iff in H. congruence.
Qed.

Lemma qmin_r (a b : Q) : (Q2R (qmin a b) <= Q2R b)%R.
Proof.
  unfold qmin. destruct (Qle_bool a b) eqn:E; [|lra].
  apply Qle_Rle. apply Qle_bool_iff. exact E.
Qed.

Lemma qmax_l (a b : Q) : (Q2R a <= Q2R (qmax a b))%R.
Proof.
  unfold qmax. destruct (Qle_bool a b) eqn:E; [|lra].
  apply Qle_Rle. apply Qle_bool_iff. exact E.
Qed.

Lemma qmax_r (a b : Q) : (Q2R b <= Q2R (qmax a b))%R.
Proof.
  unfold qmax. destruct (Qle_bool a b) eqn:E; [lra|].
  apply Qle_Rle. destruct (Qlt_le_dec b a) as [H|H]; [lra|].
  apply Qle_bool_iff in H. congruence.
Qed.

Lemma ipoint_sound (q : Q) : contains (ipoint q) (Q2R q).
Proof. unfold contains; simpl. lra. Qed.

Lemma iZ_sound (z : Z) : contains (ipoint (inject_Z z)) (IZR z).
Proof. unfold contains, Q2R; simpl. lra. Qed.

Lemma iadd_sound (I J : itv) (x y : R) :
  contains I x -> contains J y -> contains (iadd I J) (x + y)%R.
Proof.
  unfold contains, iadd; simpl. intros [H1 H2] [H3 H4].
  pose proof (rnd_dn_le (lo I + lo J)) as D.
  pose proof (rnd_up_ge (hi I + hi J)) as U.
  rewrite Q2R_plus in D, U. lra.
Qed.

Lemma iopp_sound (I : itv) (x : R) :
  contains I x -> contains (iopp I) (- x)%R.
Proof.
  unfold contains, iopp; simpl. intros [H1 H2].
  rewrite !Q2R_opp. lra.
Qed.

Lemma isub_sound (I J : itv) (x y : R) :
  contains I x -> contains J y -> contains (isub I J) (x - y)%R.
Proof.
  unfold contains, isub; simpl. intros [H1 H2] [H3 H4].
  pose proof (rnd_dn_le (lo I - hi J)) as D.
  pose proof (rnd_up_ge (hi I - lo J)) as U.
  rewrite Q2R_minus in D, U. lra.
Qed.

Lemma mul_corner_lower (il ih jl jh x y : R) :
  (il <= x <= ih -> jl <= y <= jh ->
   il * jl <= x * y \/ il * jh <= x * y \/ ih * jl <= x * y \/ ih * jh <= x * y)%R.
Proof.
  intros [H1 H2] [H3 H4].
  destruct (Rle_dec 0 x); destruct (Rle_dec 0 y);
    destruct (Rle_dec 0 il); destruct (Rle_dec 0 ih);
    destruct (Rle_dec 0 jl); destruct (Rle_dec 0 jh);
    try lra;
    first [left; nra | right; left; nra | right; right; left; nra
          | right; right; right; nra].
Qed.

Lemma mul_corner_upper (il ih jl jh x y : R) :
  (il <= x <= ih -> jl <= y <= jh ->
   x * y <= il * jl \/ x * y <= il * jh \/ x * y <= ih * jl \/ x * y <= ih * jh)%R.
Proof.
  intros [H1 H2] [H3 H4].
  destruct (Rle_dec 0 x); destruct (Rle_dec 0 y);
    destruct (Rle_dec 0 il); destruct (Rle_dec 0 ih);
    destruct (Rle_dec 0 jl); destruct (Rle_dec 0 jh);
    try lra;
    first [left; nra | right; left; nra | right; right; left; nra
          | right; right; right; nra].
Qed.

Lemma imul_sound (I J : itv) (x y : R) :
  contains I x -> contains J y -> contains (imul I J) (x * y)%R.
Proof.
  unfold contains, imul; simpl. intros H1 H3.
  set (a := lo I * lo J). set (b := lo I * hi J).
  set (c := hi I * lo J). set (d := hi I * hi J).
  pose proof (rnd_dn_le (qmin (qmin a b) (qmin c d))) as D.
  pose proof (rnd_up_ge (qmax (qmax a b) (qmax c d))) as U.
  pose proof (qmin_l (qmin a b) (qmin c d)) as m1.
  pose proof (qmin_r (qmin a b) (qmin c d)) as m2.
  pose proof (qmin_l a b) as m3. pose proof (qmin_r a b) as m4.
  pose proof (qmin_l c d) as m5. pose proof (qmin_r c d) as m6.
  pose proof (qmax_l (qmax a b) (qmax c d)) as M1.
  pose proof (qmax_r (qmax a b) (qmax c d)) as M2.
  pose proof (qmax_l a b) as M3. pose proof (qmax_r a b) as M4.
  pose proof (qmax_l c d) as M5. pose proof (qmax_r c d) as M6.
  unfold a, b, c, d in *. rewrite !Q2R_mult in *.
  destruct (mul_corner_lower _ _ _ _ _ _ H1 H3) as [L|[L|[L|L]]];
    destruct (mul_corner_upper _ _ _ _ _ _ H1 H3) as [V|[V|[V|V]]];
    clear H1 H3 a b c d; hide_Q2R; split; lra.
Qed.

Lemma apart_cases (I : itv) :
  apart I = true ->
  (Q2R (lo I) <= Q2R (hi I))%R
  /\ ((0 < Q2R (lo I))%R \/ (Q2R (hi I) < 0)%R).
Proof.
  unfold apart. intros H. apply andb_true_iff in H. destruct H as [H1 H2].
  apply Qle_bool_iff in H1. split; [apply Qle_Rle; exact H1|].
  apply orb_true_iff in H2. destruct H2 as [H2|H2];
    apply negb_true_iff in H2; [left | right].
  - destruct (Qlt_le_dec 0 (lo I)) as [P|N].
    + replace 0%R with (Q2R 0) by (unfold Q2R; simpl; lra).
      apply Qlt_Rlt. exact P.
    + apply Qle_bool_iff in N. congruence.
  - destruct (Qlt_le_dec (hi I) 0) as [P|N].
    + replace 0%R with (Q2R 0) by (unfold Q2R; simpl; lra).
      apply Qlt_Rlt. exact P.
    + apply Qle_bool_iff in N. congruence.
Qed.

Lemma Q2R_nonzero (q : Q) : (Q2R q <> 0)%R -> ~ q == 0.
Proof.
  intros H E. apply H. rewrite (Qeq_eqR _ _ E). unfold Q2R; simpl. lra.
Qed.

Lemma iinv_sound (I : itv) (y : R) :
  apart I = true -> contains I y -> contains (iinv I) (/ y)%R.
Proof.
  intros Ha [H1 H2]. destruct (apart_cases I Ha) as [Hle Hs].
  unfold contains, iinv; simpl.
  pose proof (rnd_dn_le (/ hi I)) as D. pose proof (rnd_up_ge (/ lo I)) as U.
  rewrite Q2R_inv in D by (apply Q2R_nonzero; lra).
  rewrite Q2R_inv in U by (apply Q2R_nonzero; lra).
  assert (B : (/ Q2R (hi I) <= / y <= / Q2R (lo I))%R).
  { destruct Hs as [P|N].
    - split; apply Rinv_le_contravar; lra.
    - assert (A1 : (/ - Q2R (lo I) <= / - y)%R)
        by (apply Rinv_le_contravar; lra).
      assert (A2 : (/ - y <= / - Q2R (hi I))%R)
        by (apply Rinv_le_contravar; lra).
      rewrite !Rinv_opp in A1, A2. lra. }
  hide_Q2R. lra.
Qed.

Lemma idiv_sound (I J : itv) (x y : R) :
  apart J = true -> contains I x -> contains J y ->
  contains (idiv I J) (x / y)%R.
Proof.
  intros Ha Hx Hy. unfold idiv, Rdiv.
  apply imul_sound; [exact Hx | apply iinv_sound; assumption].
Qed.

Lemma within_sound (I J : itv) (x : R) :
  within I J = true -> contains I x -> contains J x.
Proof.
  unfold within, contains. intros H [H1 H2].
  apply andb_true_iff in H. destruct H as [A B].
  apply Qle_bool_iff in A, B. apply Qle_Rle in A, B. lra.
Qed.

Lemma contains_eq (I : itv) (x y : R) : x = y -> contains I x -> contains I y.
Proof. intros ->. trivial. Qed.

Lemma apart_positive_point (c : Z) :
  (0 < c)%Z -> apart (ipoint (inject_Z c)) = true.
Proof.
  intros H. unfold apart, ipoint; simpl.
  apply andb_true_iff. split.
  - apply Qle_bool_iff. apply Qle_refl.
  - apply orb_true_iff. left. apply negb_true_iff.
    destruct (Qle_bool (inject_Z c) 0) eqn:E; [|reflexivity].
    apply Qle_bool_iff in E. change 0 with (inject_Z 0) in E.
    rewrite <- Zle_Qle in E. lia.
Qed.

Lemma ialt_sum_sound (A2 : itv) (a2 : R) (n : nat) :
  contains A2 a2 ->
  forall (T : itv) (t : R) (k : Z),
    (0 <= k)%Z -> contains T t ->
    contains (ialt_sum A2 T k n) (alt_sum a2 t k n).
Proof.
  intros HA. induction n as [|n IH]; intros T t k Hk HT; simpl.
  - exact HT.
  - apply isub_sound; [exact HT|].
    apply IH; [lia|].
    rewrite <- mult_IZR.
    apply idiv_sound.
    + apply apart_positive_point. lia.
    + apply imul_sound; assumption.
    + apply iZ_sound.
Qed.

(** ** The series of sine and cosine as alternating sums *)

Lemma sum_opp (f : nat -> R) (n : nat) :
  sum_f_R0 (fun i => (- f i)%R) n = (- sum_f_R0 f n)%R.
Proof. induction n as [|n IH]; simpl; [reflexivity | rewrite IH; lra]. Qed.

Lemma sum_shift (f : nat -> R) (n : nat) :
  sum_f_R0 f (S n) = (f 0%nat + sum_f_R0 (fun i => f (S i)) n)%R.
Proof. rewrite decomp_sum by lia. reflexivity. Qed.

Lemma alt_sum_series (a2 : R) (u : nat -> R) (c : nat -> Z) :
  (forall j, u (S j) = (u j * a2 / (IZR (c j + 1) * IZR (c j + 2)))%R) ->
  (forall j, c (S j) = (c j + 2)%Z) ->
  forall n j,
    sum_f_R0 (fun i => ((-1) ^ i * u (j + i)%nat)%R) n
    = alt_sum a2 (u j) (c j) n.
Proof.
  intros Hu Hc. induction n as [|n IH]; intros j.
  - simpl. rewrite Nat.add_0_r. lra.
  - rewrite sum_shift. simpl alt_sum.
    rewrite <- Hu, <- Hc, <- IH.
    rewrite Nat.add_0_r.
    replace (sum_f_R0 (fun i => ((-1) ^ S i * u (j + S i)%nat)%R) n)
      with (- sum_f_R0 (fun i => ((-1) ^ i * u (S j + i)%nat)%R) n)%R.
    + simpl. lra.
    + rewrite <- sum_opp. apply sum_eq. intros i _.
      replace (j + S i)%nat with (S j + i)%nat by lia. simpl. lra.
Qed.

Lemma fact_step (m : nat) :
  INR (fact (S (S m))) = (INR (fact m) * (INR m + 1) * (INR m + 2))%R.
Proof.
  rewrite !fact_simpl, !mult_INR, !S_INR. ring.
Qed.

Lemma sin_approx_alt_sum (a : R) (n : nat) :
  sin_approx a n = alt_sum (a * a) a 1 n.
Proof.
  unfold sin_approx.
  pose (u := fun j : nat => (a ^ (2 * j + 1) / INR (fact (2 * j + 1)))%R).
  pose (c := fun j : nat => (2 * Z.of_nat j + 1)%Z).
  transitivity (alt_sum (a * a) (u 0%nat) (c 0%nat) n);
    [|unfold u, c; simpl; f_equal; field].
  rewrite <- (alt_sum_series (a * a) u c).
  - apply sum_eq. intros i _. reflexivity.
  - intros j. unfold u, c.
    replace (2 * S j + 1)%nat with (S (S (2 * j + 1))) by lia.
    rewrite fact_step. simpl pow.
    replace (2 * Z.of_nat j + 1 + 1)%Z with (Z.of_nat (2 * j + 1) + 1)%Z by lia.
    replace (2 * Z.of_nat j + 1 + 2)%Z with (Z.of_nat (2 * j + 1) + 2)%Z by lia.
    rewrite !plus_IZR, <- INR_IZR_INZ.
    pose proof (INR_fact_neq_0 (2 * j + 1)) as F.
    pose proof (pos_INR (2 * j + 1)) as P.
    field. repeat split; lra.
  - intros j. unfold c. lia.
Qed.

Lemma cos_approx_alt_sum (a : R) (n : nat) :
  cos_approx a n = alt_sum (a * a) 1 0 n.
Proof.
  unfold cos_approx.
  pose (u := fun j : nat => (a ^ (2 * j) / INR (fact (2 * j)))%R).
  pose (c := fun j : nat => (2 * Z.of_nat j)%Z).
  transitivity (alt_sum (a * a) (u 0%nat) (c 0%nat) n);
    [|unfold u, c; simpl; f_equal; field].
  rewrite <- (alt_sum_series (a * a) u c).
  - apply sum_eq. intros i _. reflexivity.
  - intros j. unfold u, c.
    replace (2 * S j)%nat with (S (S (2 * j))) by lia.
    rewrite fact_step. simpl pow.
    replace (2 * Z.of_nat j + 1)%Z with (Z.of_nat (2 * j) + 1)%Z by lia.
    replace (2 * Z.of_nat j + 2)%Z with (Z.of_nat (2 * j) + 2)%Z by lia.
    rewrite !plus_IZR, <- INR_IZR_INZ.
    pose proof (INR_fact_neq_0 (2 * j)) as F.
    pose proof (pos_INR (2 * j)) as P.
    field. repeat split; lra.
  - intros j. unfold c. lia.
Qed.

Lemma domain_bounds (l h : Q) (A : itv) (a : R) :
  Qle_bool l (lo A) && Qle_bool (hi A) h = true ->
  contains A a -> (Q2R l <= a <= Q2R h)%R.
Proof.
  intros H [H1 H2]. apply andb_true_iff in H. destruct H as [B1 B2].
  apply Qle_bool_iff in B1, B2. apply Qle_Rle in B1, B2. lra.
Qed.

Lemma isin_sound (n : nat) (A : itv) (a : R) :
  sin_domain A = true -> contains A a -> contains (isin n A) (sin a).
Proof.
  intros Hd Ha.
  destruct (domain_bounds 0 4 A a Hd Ha) as [B1 B2].
  assert (B1' : (0 <= a)%R) by (unfold Q2R in B1; simpl in B1; lra).
  assert (B2' : (a <= 4)%R) by (unfold Q2R in B2; simpl in B2; lra).
  destruct (pre_sin_bound a n B1' B2') as [L U].
  rewrite !sin_approx_alt_sum in L, U.
  assert (HA2 : contains (imul A A) (a * a)%R) by (apply imul_sound; assumption).
  destruct (ialt_sum_sound (imul A A) (a * a) (2 * n + 1) HA2 A a 1) as [L1 _];
    [lia | exact Ha |].
  destruct (ialt_sum_sound (imul A A) (a * a) (2 * (n + 1)) HA2 A a 1) as [_ U1];
    [lia | exact Ha |].
  unfold contains, isin. cbn [lo hi]. split; lra.
Qed.

Lemma icos_sound (n : nat) (A : itv) (a : R) :
  cos_domain A = true -> contains A a -> contains (icos n A) (cos a).
Proof.
  intros Hd Ha.
  destruct (domain_bounds (-2) 2 A a Hd Ha) as [B1 B2].
  assert (B1' : (-2 <= a)%R) by (unfold Q2R in B1; simpl in B1; lra).
  assert (B2' : (a <= 2)%R) by (unfold Q2R in B2; simpl in B2; lra).
  destruct (pre_cos_bound a n B1' B2') as [L U].
  rewrite !cos_approx_alt_sum in L, U.
  assert (HA2 : contains (imul A A) (a * a)%R) by (apply imul_sound; assumption).
  assert (H1 : contains (ipoint 1) 1%R)
    by (unfold contains, Q2R; simpl; lra).
  destruct (ialt_sum_sound (imul A A) (a * a) (2 * n + 1) HA2 (ipoint 1) 1 0)
    as [L1 _]; [lia | exact H1 |].
  destruct (ialt_sum_sound (imul A A) (a * a) (2 * (n + 1)) HA2 (ipoint 1) 1 0)
    as [_ U1]; [lia | exact H1 |].
  unfold contains, icos. cbn [lo hi]. split; lra.
Qed.

(** ** An enclosure of pi *)

Lemma Q2R_qpow (q : Q) (n : nat) : Q2R (qpow q n) = (Q2R q ^ n)%R.
Proof.
  induction n as [|n IH]; simpl.
  - unfold Q2R; simpl. lra.
  - rewrite Q2R_mult, IH. reflexivity.
Qed.

Lemma Q2R_of_nat (n : nat) : Q2R (inject_Z (Z.of_nat n)) = INR n.
Proof. rewrite INR_IZR_INZ. unfold Q2R; simpl. lra. Qed.

Lemma pi_term_real (i : nat) : Q2R (pi_term i) = tg_alt PI_2_3_7_tg i.
Proof.
  unfold pi_term, tg_alt, PI_2_3_7_tg, Ratan_seq.
  assert (N : ~ inject_Z (Z.of_nat (2 * i + 1)) == 0).
  { change 0 with (inject_Z 0). rewrite inject_Z_injective. lia. }
  rewrite Q2R_mult, Q2R_plus, Q2R_mult, !Q2R_div, !Q2R_qpow, Q2R_of_nat by exact N.
  replace (Q2R (-1)) with (-1)%R by (unfold Q2R; simpl; lra).
  replace (Q2R 2) with 2%R by (unfold Q2R; simpl; lra).
  replace (Q2R (1 # 3)) with (/ 3)%R by (unfold Q2R; simpl; lra).
  replace (Q2R (1 # 7)) with (/ 7)%R by (unfold Q2R; simpl; lra).
  reflexivity.
Qed.

Lemma pi_sum_real (n : nat) :
  Q2R (pi_sum n) = sum_f_R0 (tg_alt PI_2_3_7_tg) n.
Proof.
  induction n as [|n IH]; simpl.
  - apply pi_term_real.
  - rewrite Q2R_plus, IH, pi_term_real. reflexivity.
Qed.

Lemma IPI_series_sound : contains IPI_series PI.
Proof.
  destruct (PI_2_3_7_ineq 8) as [L U].
  change (S (2 * 8)) with 17%nat in L. change (2 * 8)%nat with 16%nat in U.
  rewrite <- pi_sum_real in L, U.
  pose proof (rnd_dn_le (4 * pi_sum 17)) as D.
  pose proof (rnd_up_ge (4 * pi_sum 16)) as V.
  rewrite Q2R_mult in D, V.
  replace (Q2R 4) with 4%R in D, V by (unfold Q2R; simpl; lra).
  unfold contains, IPI_series. cbn [lo hi]. hide_Q2R. lra.
Qed.

Lemma IPI_sound : contains IPI PI.
Proof.
  apply (within_sound IPI_series); [vm_compute; reflexivity|].
  apply IPI_series_sound.
Qed.

(** ** Building enclosures *)

Lemma contains_compute (I J : itv) (x : R) : I = J -> contains I x -> contains J x.
Proof. intros ->. trivial. Qed.

(** The operations with their result computed on the spot, so that every
    enclosure in a proof is between two numerals. *)
Lemma iadd_to (I J K : itv) (x y : R) :
  contains I x -> contains J y -> iadd I J = K -> contains K (x + y)%R.
Proof. intros Hx Hy <-. apply iadd_sound; assumption. Qed.

Lemma isub_to (I J K : itv) (x y : R) :
  contains I x -> contains J y -> isub I J = K -> contains K (x - y)%R.
Proof. intros Hx Hy <-. apply isub_sound; assumption. Qed.

Lemma imul_to (I J K : itv) (x y : R) :
  contains I x -> contains J y -> imul I J = K -> contains K (x * y)%R.
Proof. intros Hx Hy <-. apply imul_sound; assumption. Qed.

Lemma idiv_to (I J K : itv) (x y : R) :
  contains I x -> contains J y -> apart J = true -> idiv I J = K ->
  contains K (x / y)%R.
Proof. intros Hx Hy Ha <-. apply idiv_sound; assumption. Qed.

Lemma isin_to (I K : itv) (x : R) :
  contains I x -> sin_domain I = true -> isin 7 I = K -> contains K (sin x).
Proof. intros Hx Hd <-. apply isin_sound; assumption. Qed.

Lemma icos_to (I K : itv) (x : R) :
  contains I x -> cos_domain I = true -> icos 7 I = K -> contains K (cos x).
Proof. intros Hx Hd <-. apply icos_sound; assumption. Qed.

(** Closes [e = ?K] with the value of [e]. *)
Ltac computed :=
  lazymatch goal with
  | |- ?e = _ => let v := eval vm_compute in e in exact (eq_refl v <: e = v)
  end.

Ltac enclose :=
  lazymatch goal with
  | |- contains _ (Q2R _) => apply ipoint_sound
  | |- contains _ (IZR _) => apply iZ_sound
  | |- contains _ PI => apply IPI_sound
  | |- contains _ (_ + _)%R => eapply iadd_to; [enclose | enclose | computed]
  | |- contains _ (_ - _)%R => eapply isub_to; [enclose | enclose | computed]
  | |- contains _ (_ * _)%R => eapply imul_to; [enclose | enclose | computed]
  | |- contains _ (- _)%R => eapply iopp_sound; enclose
  | |- contains _ (_ / _)%R =>
      eapply idiv_to; [enclose | enclose | computed | computed]
  | |- contains _ (sin _) => eapply isin_to; [enclose | computed | computed]
  | |- contains _ (cos _) => eapply icos_to; [enclose | computed | computed]
  | |- contains _ _ => eassumption
  end.

Local Open Scope R_scope.

(** ** Reductions of the trigonometric functions *)

Lemma sin_2PI_minus (x : R) : sin (2 * PI - x) = - sin x.
Proof. rewrite sin_minus, sin_2PI, cos_2PI. lra. Qed.

Lemma cos_2PI_minus (x : R) : cos (2 * PI - x) = cos x.
Proof. rewrite cos_minus, sin_2PI, cos_2PI. lra. Qed.



Lemma cos_minus_PI (x : R) : cos (x - PI) = - cos x.
Proof. rewrite cos_minus, sin_PI, cos_PI. lra. Qed.

Lemma cos_PI_minus (x : R) : cos (PI - x) = - cos x.
Proof. rewrite cos_minus, sin_PI, cos_PI. lra. Qed.

(** ** Bounds of the inverse functions from bounds of the direct ones *)

Lemma atan_le (x y : R) : x <= y -> atan x <= atan y.
Proof.
  intros [H|H]; [left; apply atan_increasing; exact H | subst; lra].
Qed.

Lemma atan_between (y a b : R) :
  - (PI / 2) < a -> a < PI / 2 -> - (PI / 2) < b -> b < PI / 2 ->
  tan a <= y -> y <= tan b -> a <= atan y <= b.
Proof.
  intros A1 A2 B1 B2 H1 H2.
  split.
  - apply Rle_trans with (atan (tan a)); [rewrite atan_tan; lra|].
    apply atan_le; assumption.
  - apply Rle_trans with (atan (tan b)); [|rewrite atan_tan; lra].
    apply atan_le; assumption.
Qed.

Lemma sqrt_between (v a b : R) :
  0 <= a -> 0 <= b -> a * a <= v -> v <= b * b -> a <= sqrt v <= b.
Proof.
  intros A B H1 H2.
  split.
  - apply Rle_trans with (sqrt (a * a)); [rewrite sqrt_square; lra|].
    apply sqrt_le_1_alt; assumption.
  - apply Rle_trans with (sqrt (b * b)); [|rewrite sqrt_square; lra].
    apply sqrt_le_1_alt; assumption.
Qed.

Lemma acos_between (c a b : R) :
  0 <= a -> a <= PI -> 0 <= b -> b <= PI ->
  cos b <= c -> c <= cos a -> a <= acos c <= b.
Proof.
  intros A1 A2 B1 B2 H1 H2.
  pose proof (COS_bound a) as Ca. pose proof (COS_bound b) as Cb.
  assert (Hc : -1 <= c <= 1) by lra.
  pose proof (acos_bound c) as Hb.
  pose proof (cos_acos c Hc) as E.
  split; apply Rnot_lt_le; intros C.
  - assert (cos a < cos (acos c))
      by (apply cos_decreasing_1; lra).
    lra.
  - assert (cos (acos c) < cos b)
      by (apply cos_decreasing_1; lra).
    lra.
Qed.

Lemma contains_bounds (I : itv) (x : R) :
  contains I x -> Q2R (lo I) <= x /\ x <= Q2R (hi I).
Proof. intros H; exact H. Qed.

(** ** The general statement of the polar case *)


Lemma atan_between_neg (y qa qb : R) :
  0 < qb -> qb <= qa -> qa < PI / 2 ->
  tan qb <= - y -> - y <= tan qa -> - qa <= atan y <= - qb.
Proof.
  intros H1 H2 H3 T1 T2.
  apply atan_between; try lra; rewrite tan_neg; lra.
Qed.

Lemma acos_between_PI (c qa qb : R) :
  0 <= qb -> qb <= qa -> qa <= PI ->
  - cos qb <= c -> c <= - cos qa -> PI - qa <= acos c <= PI - qb.
Proof.
  intros H1 H2 H3 C1 C2.
  apply acos_between; try lra; rewrite cos_PI_minus; lra.
Qed.

(** [enclosed_by H x prep] adds [H : contains I x], with [I] computed, after
    [prep] has put [x] in a form made of enclosed parts. *)
Ltac enclosed_by H x prep :=
  let I := fresh "I" in
  evar (I : itv);
  assert (H : contains I x) by (subst I; prep; enclose);
  let J := eval vm_compute in I in
  change I with J in H;
  clear I.

(** The two inequalities of an enclosure, for linear arithmetic. *)
Ltac bounds_of H L U :=
  destruct (contains_bounds _ _ H) as [L U]; cbn [lo hi] in L, U.

Lemma contains_interval (x : R) (a b : Q) :
  Q2R a <= x -> x <= Q2R b -> contains (mkitv a b) x.
Proof. intros H1 H2. split; assumption. Qed.

(** ** Polar night: 89 degrees north on 21 December 2007 *)




(** ** Sunrise and sunset at (52.015, -0.221) on 28 June 2007 *)

Lemma sunrise_20070628 :
  sun_rise_set 52.015 (-0.221) (mkdate 2007 6 28) "rise" 0 None
  = Ok (Some (mktime 3 42)).
Proof.
  unfold sun_rise_set, sun_position.
  cbn [ZENITH bind String.eqb Ascii.eqb Bool.eqb].
  change (day_of_year (mkdate 2007 6 28)) with 179%Z.
  set (t := IZR 179 + (6 - -0.221 / 15) / 24).
  set (m := 0.9856 * t - 3.289).
  set (lraw := m + 1.916 * sin (radians m) + 0.020 * sin (2 * radians m) + 282.634).
  enclosed_by Ht t ltac:(unfold t).
  enclosed_by Hm m ltac:(unfold m).
  assert (Es2 : sin (2 * radians m) = - sin (2 * PI - 2 * radians m))
    by (rewrite sin_2PI_minus; lra).
  enclosed_by Hl lraw ltac:(unfold lraw; rewrite Es2; unfold radians).
  bounds_of Hl Hl1 Hl2.
  unfold r_mod. destruct (Req_dec_T 360 0) as [E|_]; [exfalso; clear - E; lra|].
  cbn [bind]. rewrite (Rabs_pos_eq lraw) by (clear - Hl1; lra).
  assert (Ef : r_floor (lraw / 360) = 1).
  { unfold r_floor. rewrite (Int_part_unique (lraw / 360) 1);
      [reflexivity | clear - Hl1; lra | clear - Hl2; lra]. }
  rewrite Ef.
  set (l := lraw - 360 * 1).
  enclosed_by Hll l ltac:(unfold l).
  bounds_of Hll Hll1 Hll2.
  (* right ascension *)
  set (y := 0.91764 * tan (radians l)).
  enclosed_by Hy (- y) ltac:(unfold y, tan, radians).
  bounds_of Hy Hy1 Hy2.
  enclosed_by Hpi PI idtac. bounds_of Hpi Hpi1 Hpi2.
  enclosed_by Hta (tan 1.452377295) ltac:(unfold tan).
  enclosed_by Htb (tan 1.452377292) ltac:(unfold tan).
  bounds_of Hta Hta1 Hta2. bounds_of Htb Htb1 Htb2.
  assert (Hat : contains (mkitv (-1452377295 # 1000000000)
                                (-1452377292 # 1000000000)) (atan y)).
  { destruct (atan_between_neg y 1.452377295 1.452377292) as [A1 A2].
    - clear. lra.
    - clear. lra.
    - clear - Hpi1. lra.
    - clear - Hy1 Htb2. lra.
    - clear - Hy2 Hta1. lra.
    - apply contains_interval; [clear - A1 | clear - A2]; lra. }
  set (ra0 := degrees (atan y)).
  enclosed_by Hra0 ra0 ltac:(unfold ra0, degrees).
  bounds_of Hra0 Hra1 Hra2.
  assert (Ef1 : r_floor (l / 90) = 1).
  { unfold r_floor. rewrite (Int_part_unique (l / 90) 1);
      [reflexivity | clear - Hll1; lra | clear - Hll2; lra]. }
  assert (Ef2 : r_floor (ra0 / 90) = -1).
  { unfold r_floor. rewrite (Int_part_unique (ra0 / 90) (-1));
      [reflexivity | clear - Hra1; lra | clear - Hra2; lra]. }
  rewrite Ef1, Ef2.
  set (ra := (ra0 + (1 * 90 - -1 * 90)) / 15).
  enclosed_by Hra ra ltac:(unfold ra).
  (* declination and hour angle *)
  set (sinDec := 0.39782 * sin (radians l)).
  enclosed_by Hs sinDec ltac:(unfold sinDec, radians).
  bounds_of Hs Hs1 Hs2.
  unfold math_asin.
  destruct (Rlt_dec sinDec (-1)) as [C|_]; [exfalso; clear - C Hs1; lra|].
  destruct (Rlt_dec 1 sinDec) as [C|_]; [exfalso; clear - C Hs2; lra|].
  cbn [bind]. rewrite cos_asin by (clear - Hs1 Hs2; lra).
  set (cosDec := sqrt (1 - sinDec²)).
  assert (Hc : contains (mkitv (918478866 # 1000000000)
                               (918478868 # 1000000000)) cosDec).
  { enclosed_by Hv (1 - sinDec * sinDec) idtac. bounds_of Hv Hv1 Hv2.
    destruct (sqrt_between (1 - sinDec * sinDec) 0.918478866 0.918478868)
      as [S1 S2]; try (clear - Hv1 Hv2; lra).
    apply contains_interval; unfold cosDec, Rsqr; [clear - S1 | clear - S2]; lra. }
  set (num := radians (-50 / 60) - sinDec * sin (radians 52.015)).
  set (den := cosDec * cos (radians 52.015)).
  enclosed_by Hd den ltac:(unfold den, radians).
  enclosed_by Hn num ltac:(unfold num, radians).
  bounds_of Hd Hd1 Hd2.
  unfold r_div. destruct (Req_dec_T den 0) as [E|_]; [exfalso; clear - E Hd1; lra|].
  cbn [bind].
  set (cosH := num / den).
  enclosed_by Hq cosH ltac:(unfold cosH).
  bounds_of Hq Hq1 Hq2.
  destruct (Rlt_dec 1 cosH) as [C|_]; [exfalso; clear - C Hq2; lra|].
  destruct (Rlt_dec cosH (-1)) as [C|_]; [exfalso; clear - C Hq1; lra|].
  unfold math_acos.
  destruct (Rlt_dec cosH (-1)) as [C|_]; [exfalso; clear - C Hq1; lra|].
  destruct (Rlt_dec 1 cosH) as [C|_]; [exfalso; clear - C Hq2; lra|].
  cbn [bind].
  enclosed_by Hca (cos 0.955583586) idtac.
  enclosed_by Hcb (cos 0.955583583) idtac.
  bounds_of Hca Hca1 Hca2. bounds_of Hcb Hcb1 Hcb2.
  assert (Hac : contains (mkitv (2186009067589 # 1000000000000)
                                (2186009070590 # 1000000000000)) (acos cosH)).
  { destruct (acos_between_PI cosH 0.955583586 0.955583583) as [A1 A2].
    - clear. lra.
    - clear. lra.
    - clear - Hpi1. lra.
    - clear - Hq1 Hcb1. lra.
    - clear - Hq2 Hca2. lra.
    - set (a := acos cosH) in *. clearbody a.
      apply contains_interval; [clear - A1 Hpi1 | clear - A2 Hpi2]; lra. }
  set (angle := acos cosH) in *.
  set (localT := (360 - degrees angle) / 15 + ra - 0.06571 * t - 6.622
                 - -0.221 / 15 + 0 / 60).
  enclosed_by HT localT ltac:(unfold localT, degrees).
  bounds_of HT HT1 HT2.
  rewrite (local_clock_above_one localT 3 42);
    [reflexivity | lia | lia | clear - HT1; lra | clear - HT2; lra
    | clear - HT1; lra | clear - HT2; lra].
Qed.

Lemma sunset_20070628 :
  sun_rise_set 52.015 (-0.221) (mkdate 2007 6 28) "set" 0 None
  = Ok (Some (mktime 20 25)).
Proof.
  unfold sun_rise_set, sun_position.
  cbn [ZENITH bind String.eqb Ascii.eqb Bool.eqb].
  change (day_of_year (mkdate 2007 6 28)) with 179%Z.
  set (t := IZR 179 + (18 - -0.221 / 15) / 24).
  set (m := 0.9856 * t - 3.289).
  set (lraw := m + 1.916 * sin (radians m) + 0.020 * sin (2 * radians m) + 282.634).
  enclosed_by Ht t ltac:(unfold t).
  enclosed_by Hm m ltac:(unfold m).
  assert (Es2 : sin (2 * radians m) = - sin (2 * PI - 2 * radians m))
    by (rewrite sin_2PI_minus; lra).
  enclosed_by Hl lraw ltac:(unfold lraw; rewrite Es2; unfold radians).
  bounds_of Hl Hl1 Hl2.
  unfold r_mod. destruct (Req_dec_T 360 0) as [E|_]; [exfalso; clear - E; lra|].
  cbn [bind]. rewrite (Rabs_pos_eq lraw) by (clear - Hl1; lra).
  assert (Ef : r_floor (lraw / 360) = 1).
  { unfold r_floor. rewrite (Int_part_unique (lraw / 360) 1);
      [reflexivity | clear - Hl1; lra | clear - Hl2; lra]. }
  rewrite Ef.
  set (l := lraw - 360 * 1).
  enclosed_by Hll l ltac:(unfold l).
  bounds_of Hll Hll1 Hll2.
  (* right ascension *)
  set (y := 0.91764 * tan (radians l)).
  enclosed_by Hy (- y) ltac:(unfold y, tan, radians).
  bounds_of Hy Hy1 Hy2.
  enclosed_by Hpi PI idtac. bounds_of Hpi Hpi1 Hpi2.
  enclosed_by Hta (tan 1.443331020) ltac:(unfold tan).
  enclosed_by Htb (tan 1.443331017) ltac:(unfold tan).
  bounds_of Hta Hta1 Hta2. bounds_of Htb Htb1 Htb2.
  assert (Hat : contains (mkitv (-1443331020 # 1000000000)
                                (-1443331017 # 1000000000)) (atan y)).
  { destruct (atan_between_neg y 1.443331020 1.443331017) as [A1 A2].
    - clear. lra.
    - clear. lra.
    - clear - Hpi1. lra.
    - clear - Hy1 Htb2. lra.
    - clear - Hy2 Hta1. lra.
    - apply contains_interval; [clear - A1 | clear - A2]; lra. }
  set (ra0 := degrees (atan y)).
  enclosed_by Hra0 ra0 ltac:(unfold ra0, degrees).
  bounds_of Hra0 Hra1 Hra2.
  assert (Ef1 : r_floor (l / 90) = 1).
  { unfold r_floor. rewrite (Int_part_unique (l / 90) 1);
      [reflexivity | clear - Hll1; lra | clear - Hll2; lra]. }
  assert (Ef2 : r_floor (ra0 / 90) = -1).
  { unfold r_floor. rewrite (Int_part_unique (ra0 / 90) (-1));
      [reflexivity | clear - Hra1; lra | clear - Hra2; lra]. }
  rewrite Ef1, Ef2.
  set (ra := (ra0 + (1 * 90 - -1 * 90)) / 15).
  enclosed_by Hra ra ltac:(unfold ra).
  (* declination and hour angle *)
  set (sinDec := 0.39782 * sin (radians l)).
  enclosed_by Hs sinDec ltac:(unfold sinDec, radians).
  bounds_of Hs Hs1 Hs2.
  unfold math_asin.
  destruct (Rlt_dec sinDec (-1)) as [C|_]; [exfalso; clear - C Hs1; lra|].
  destruct (Rlt_dec 1 sinDec) as [C|_]; [exfalso; clear - C Hs2; lra|].
  cbn [bind]. rewrite cos_asin by (clear - Hs1 Hs2; lra).
  set (cosDec := sqrt (1 - sinDec²)).
  assert (Hc : contains (mkitv (918639360 # 1000000000)
                               (918639362 # 1000000000)) cosDec).
  { enclosed_by Hv (1 - sinDec * sinDec) idtac. bounds_of Hv Hv1 Hv2.
    destruct (sqrt_between (1 - sinDec * sinDec) 0.918639360 0.918639362)
      as [S1 S2]; try (clear - Hv1 Hv2; lra).
    apply contains_interval; unfold cosDec, Rsqr; [clear - S1 | clear - S2]; lra. }
  set (num := radians (-50 / 60) - sinDec * sin (radians 52.015)).
  set (den := cosDec * cos (radians 52.015)).
  enclosed_by Hd den ltac:(unfold den, radians).
  enclosed_by Hn num ltac:(unfold num, radians).
  bounds_of Hd Hd1 Hd2.
  unfold r_div. destruct (Req_dec_T den 0) as [E|_]; [exfalso; clear - E Hd1; lra|].
  cbn [bind].
  set (cosH := num / den).
  enclosed_by Hq cosH ltac:(unfold cosH).
  bounds_of Hq Hq1 Hq2.
  destruct (Rlt_dec 1 cosH) as [C|_]; [exfalso; clear - C Hq2; lra|].
  destruct (Rlt_dec cosH (-1)) as [C|_]; [exfalso; clear - C Hq1; lra|].
  unfold math_acos.
  destruct (Rlt_dec cosH (-1)) as [C|_]; [exfalso; clear - C Hq1; lra|].
  destruct (Rlt_dec 1 cosH) as [C|_]; [exfalso; clear - C Hq2; lra|].
  cbn [bind].
  enclosed_by Hca (cos 0.956343499) idtac.
  enclosed_by Hcb (cos 0.956343496) idtac.
  bounds_of Hca Hca1 Hca2. bounds_of Hcb Hcb1 Hcb2.
  assert (Hac : contains (mkitv (2185249154589 # 1000000000000)
                                (2185249157590 # 1000000000000)) (acos cosH)).
  { destruct (acos_between_PI cosH 0.956343499 0.956343496) as [A1 A2].
    - clear. lra.
    - clear. lra.
    - clear - Hpi1. lra.
    - clear - Hq1 Hcb1. lra.
    - clear - Hq2 Hca2. lra.
    - set (a := acos cosH) in *. clearbody a.
      apply contains_interval; [clear - A1 Hpi1 | clear - A2 Hpi2]; lra. }
  set (angle := acos cosH) in *.
  set (localT := degrees angle / 15 + ra - 0.06571 * t - 6.622
                 - -0.221 / 15 + 0 / 60).
  enclosed_by HT localT ltac:(unfold localT, degrees).
  bounds_of HT HT1 HT2.
  rewrite local_clock_below_zero by (clear - HT2; lra). cbv zeta.
  rewrite (r_int_neg localT (-3)) by (clear - HT1 HT2; lra).
  rewrite (r_int_neg (60 * (localT - IZR (-3))) (-35))
    by (clear - HT1 HT2; lra).
  reflexivity.
Qed.

(** C7: [sun_events] at (52.015, -0.221) on 28 June 2007 with offset 0
    returns the pair of times 03:42 and 20:25. *)
Theorem sun_events_20070628 :
  sun_events 52.015 (-0.221) (mkdate 2007 6 28) 0 None
  = Ok (Some (mktime 3 42), Some (mktime 20 25)).
Proof.
  unfold sun_events. rewrite sunrise_20070628, sunset_20070628. reflexivity.
Qed.

Local Close Scope R_scope.

(** * Further properties of the locator code *)

Lemma letter_ord (base : Z) (c : ascii) :
  (0 <= base <= ord c)%Z -> letter base (ord c - base) = c.
Proof.
  intros H. unfold letter, ord in *.
  replace (Z.of_N (N_of_ascii c) - base + base)%Z with (Z.of_N (N_of_ascii c)) by lia.
  rewrite N2Z.id. apply ascii_N_embedding.
Qed.

Lemma Z_of_Q_bounds (n m : Z) (w : Q) :
  0 < w -> inject_Z n * w < inject_Z m * w + w -> (n <= m)%Z.
Proof.
  intros Hw H.
  assert (H' : inject_Z n < inject_Z (m + 1)).
  { rewrite inject_Z_plus. change (inject_Z 1) with 1.
    apply Qmult_lt_r with w; [exact Hw|].
    setoid_replace ((inject_Z m + 1) * w) with (inject_Z m * w + w) by ring.
    exact H. }
  rewrite <- Zlt_Qlt in H'. lia.
Qed.

(** The digit the encoder extracts from [x = n * w + r] with [0 <= r < w]. *)
Lemma encode_step_exact (x w r : Q) (n : Z) :
  0 < w -> (0 <= n)%Z -> x == inject_Z n * w + r -> 0 <= r -> r < w ->
  py_int (x / w) = n /\ x - inject_Z (py_int (x / w)) * w == r.
Proof.
  intros Hw Hn E L U.
  assert (Qn : 0 <= inject_Z n)
    by (change 0 with (inject_Z 0); rewrite <- Zle_Qle; exact Hn).
  assert (Hx : 0 <= x).
  { rewrite E. apply Qle_trans with (0 + 0); [apply Qle_refl|].
    apply Qplus_le_compat; [apply Qmult_le_0_compat; lra | exact L]. }
  assert (Hq : 0 <= x / w) by (apply Qle_shift_div_l; [exact Hw | lra]).
  assert (Ei : py_int (x / w) = n).
  { rewrite (py_int_floor _ Hq).
    pose proof (Qfloor_le (x / w)) as Hlo.
    pose proof (Qlt_floor (x / w)) as Hhi.
    rewrite inject_Z_plus in Hhi. change (inject_Z 1) with 1 in Hhi.
    set (f := Qfloor (x / w)) in *.
    assert (Hxw : x == (x / w) * w) by (field; lra).
    assert (Hlo' : inject_Z f * w <= (x / w) * w)
      by (apply Qmult_le_compat_r; [exact Hlo | lra]).
    assert (Hhi' : (x / w) * w < (inject_Z f + 1) * w)
      by (apply Qmult_lt_compat_r; [exact Hw | exact Hhi]).
    apply Z.le_antisymm.
    - apply (Z_of_Q_bounds f n w Hw). lra.
    - apply (Z_of_Q_bounds n f w Hw). lra. }
  split; [exact Ei|]. rewrite Ei. lra.
Qed.

Lemma inject_Z_range (lo hi n : Z) :
  (lo <= n <= hi)%Z -> inject_Z lo <= inject_Z n /\ inject_Z n <= inject_Z hi.
Proof. intros [H1 H2]. split; rewrite <- Zle_Qle; assumption. Qed.

(** The strings the encoder emits for a position given by its indices and
    the remainder below the extsquare. *)
Lemma encoder_of_indices (lat lon : Q) (f0 f1 s2 s3 u4 u5 e6 e7 : Z) (rx ry : Q) :
  (0 <= f0 <= 17)%Z -> (0 <= f1 <= 17)%Z -> (0 <= s2 <= 9)%Z -> (0 <= s3 <= 9)%Z ->
  (0 <= u4 <= 23)%Z -> (0 <= u5 <= 23)%Z -> (0 <= e6 <= 9)%Z -> (0 <= e7 <= 9)%Z ->
  lon + 180 == 20 * inject_Z f0 + 2 * inject_Z s2 + (1 # 12) * inject_Z u4
               + (1 # 120) * inject_Z e6 + rx ->
  0 <= rx -> rx < 1 # 120 ->
  lat + 90 == 10 * inject_Z f1 + inject_Z s3 + (1 # 24) * inject_Z u5
              + (1 # 240) * inject_Z e7 + ry ->
  0 <= ry -> ry < 1 # 240 ->
  to_grid_locator lat lon "square" = Ok (text4 f0 f1 s2 s3 EmptyString)
  /\ to_grid_locator lat lon "subsquare"
     = Ok (text4 f0 f1 s2 s3 (text2 97 u4 u5 EmptyString))
  /\ to_grid_locator lat lon "extsquare"
     = Ok (text4 f0 f1 s2 s3 (text2 97 u4 u5 (text2 48 e6 e7 EmptyString))).
Proof.
  intros B0 B1 B2 B3 B4 B5 B6 B7 Ex Lx Ux Ey Ly Uy.
  destruct (inject_Z_range _ _ _ B0) as [Q0a Q0b].
  destruct (inject_Z_range _ _ _ B1) as [Q1a Q1b].
  destruct (inject_Z_range _ _ _ B2) as [Q2a Q2b].
  destruct (inject_Z_range _ _ _ B3) as [Q3a Q3b].
  destruct (inject_Z_range _ _ _ B4) as [Q4a Q4b].
  destruct (inject_Z_range _ _ _ B5) as [Q5a Q5b].
  destruct (inject_Z_range _ _ _ B6) as [Q6a Q6b].
  destruct (inject_Z_range _ _ _ B7) as [Q7a Q7b].
  change (inject_Z 0) with 0 in *. change (inject_Z 9) with 9 in *.
  change (inject_Z 17) with 17 in *. change (inject_Z 23) with 23 in *.
  assert (Hlat : -90 <= lat /\ lat <= 90) by (split; lra).
  assert (Hlon : -180 <= lon /\ lon <= 180) by (split; lra).
  destruct Hlat as [Hl1 Hl2]. destruct Hlon as [Hg1 Hg2].
  remember (lon + 180) as x0 eqn:Ex0.
  destruct (encode_step_exact x0 LONGITUDE_FIELD
              (2 * inject_Z s2 + (1 # 12) * inject_Z u4
               + (1 # 120) * inject_Z e6 + rx) f0) as [If0 Rx1];
    [reflexivity | lia | unfold_cells; lra | lra | unfold_cells; lra |].
  remember (py_int (x0 / LONGITUDE_FIELD)) as g0 eqn:Eg0.
  remember (x0 - inject_Z g0 * LONGITUDE_FIELD) as x1 eqn:Ex1.
  destruct (encode_step_exact x1 LONGITUDE_SQUARE
              ((1 # 12) * inject_Z u4 + (1 # 120) * inject_Z e6 + rx) s2)
    as [Is2 Rx2];
    [reflexivity | lia | unfold_cells; lra | lra | unfold_cells; lra |].
  remember (py_int (x1 / LONGITUDE_SQUARE)) as g2 eqn:Eg2.
  remember (x1 - inject_Z g2 * LONGITUDE_SQUARE) as x2 eqn:Ex2.
  destruct (encode_step_exact x2 LONGITUDE_SUBSQUARE
              ((1 # 120) * inject_Z e6 + rx) u4) as [Iu4 Rx3];
    [reflexivity | lia | unfold_cells; lra | lra | unfold_cells; lra |].
  remember (py_int (x2 / LONGITUDE_SUBSQUARE)) as g4 eqn:Eg4.
  remember (x2 - inject_Z g4 * LONGITUDE_SUBSQUARE) as x3 eqn:Ex3.
  destruct (encode_step_exact x3 LONGITUDE_EXTSQUARE rx e6) as [Ie6 _];
    [reflexivity | lia | unfold_cells; lra | lra | unfold_cells; lra |].
  remember (py_int (x3 / LONGITUDE_EXTSQUARE)) as g6 eqn:Eg6.
  remember (lat + 90) as y0 eqn:Ey0.
  destruct (encode_step_exact y0 LATITUDE_FIELD
              (inject_Z s3 + (1 # 24) * inject_Z u5
               + (1 # 240) * inject_Z e7 + ry) f1) as [If1 Ry1];
    [reflexivity | lia | unfold_cells; lra | lra | unfold_cells; lra |].
  remember (py_int (y0 / LATITUDE_FIELD)) as g1 eqn:Eg1.
  remember (y0 - inject_Z g1 * LATITUDE_FIELD) as y1 eqn:Ey1.
  destruct (encode_step_exact y1 LATITUDE_SQUARE
              ((1 # 24) * inject_Z u5 + (1 # 240) * inject_Z e7 + ry) s3)
    as [Is3 Ry2];
    [reflexivity | lia | unfold_cells; lra | lra | unfold_cells; lra |].
  remember (py_int (y1 / LATITUDE_SQUARE)) as g3 eqn:Eg3.
  remember (y1 - inject_Z g3 * LATITUDE_SQUARE) as y2 eqn:Ey2.
  destruct (encode_step_exact y2 LATITUDE_SUBSQUARE
              ((1 # 240) * inject_Z e7 + ry) u5) as [Iu5 Ry3];
    [reflexivity | lia | unfold_cells; lra | lra | unfold_cells; lra |].
  remember (py_int (y2 / LATITUDE_SUBSQUARE)) as g5 eqn:Eg5.
  remember (y2 - inject_Z g5 * LATITUDE_SUBSQUARE) as y3 eqn:Ey3.
  destruct (encode_step_exact y3 LATITUDE_EXTSQUARE ry e7) as [Ie7 _];
    [reflexivity | lia | unfold_cells; lra | lra | unfold_cells; lra |].
  remember (py_int (y3 / LATITUDE_EXTSQUARE)) as g7 eqn:Eg7.
  repeat split; unfold to_grid_locator;
    cbn [String.eqb Ascii.eqb Bool.eqb orb negb andb];
    rewrite !Qle_bool_true by assumption;
    cbn [negb andb]; cbv zeta;
    rewrite <- Ex0, <- Eg0, <- Ex1, <- Eg2, <- Ey0, <- Eg1, <- Ey1, <- Eg3;
    rewrite ?chr_ok by lia; cbn [bind];
    rewrite <- ?Ex2, <- ?Eg4, <- ?Ey2, <- ?Eg5;
    rewrite ?chr_ok by lia; cbn [bind];
    rewrite <- ?Ex3, <- ?Eg6, <- ?Ey3, <- ?Eg7;
    rewrite !py_str_digit by lia; subst; reflexivity.
Qed.

Ltac split_valid H :=
  repeat match goal with
    | H : (_ && _)%bool = true |- _ => apply andb_true_iff in H; destruct H
    end;
  repeat match goal with
    | H : spec_field_char _ = true |- _ => apply field_char_index in H
    | H : spec_digit_char _ = true |- _ =>
        apply digit_char_index in H; destruct H
    | H : spec_subsquare_char _ = true |- _ =>
        apply subsquare_char_index in H; destruct H
    end.

(** X1: Decoding a valid locator and encoding the result at the precision of
    its length gives the locator back. *)
Theorem locator_decode_encode (s : string) :
  spec_valid_locator s = true ->
  exists lat lon,
    from_grid_locator s = Ok (lat, lon)
    /\ to_grid_locator lat lon (locator_precision s) = Ok s.
Proof.
  intros H. unfold spec_valid_locator in H.
  destruct s as [|c0 [|c1 [|c2 [|c3 [|c4 [|c5 [|c6 [|c7 [|c8 s]]]]]]]]];
    cbn [list_ascii_of_string] in H; try discriminate H; split_valid H.
  - destruct (decode4 c0 c1 c2 c3 (ord c0 - 65) (ord c1 - 65)
                (ord c2 - 48) (ord c3 - 48))
      as (la & lo & D & Ela & Elo); try assumption; try reflexivity.
    exists la, lo. split; [exact D|].
    destruct (encoder_of_indices la lo (ord c0 - 65) (ord c1 - 65)
                (ord c2 - 48) (ord c3 - 48) 0 0 5 5 0 0) as (S4 & _ & _);
      try assumption; try lia;
      try (change (inject_Z 0) with 0; change (inject_Z 5) with 5; lra).
    unfold locator_precision; cbn [String.length]. rewrite S4.
    unfold text4. rewrite !letter_ord by lia. reflexivity.
  - destruct (decode6 c0 c1 c2 c3 c4 c5 (ord c0 - 65) (ord c1 - 65)
                (ord c2 - 48) (ord c3 - 48) (ord c4 - 97) (ord c5 - 97))
      as (la & lo & D & Ela & Elo); try assumption; try reflexivity.
    exists la, lo. split; [exact D|].
    destruct (encoder_of_indices la lo (ord c0 - 65) (ord c1 - 65)
                (ord c2 - 48) (ord c3 - 48) (ord c4 - 97) (ord c5 - 97)
                5 5 0 0) as (_ & S6 & _);
      try assumption; try lia;
      try (change (inject_Z 0) with 0; change (inject_Z 5) with 5; lra).
    unfold locator_precision; cbn [String.length]. rewrite S6.
    unfold text4, text2. rewrite !letter_ord by lia. reflexivity.
  - destruct (decode8 c0 c1 c2 c3 c4 c5 c6 c7 (ord c0 - 65) (ord c1 - 65)
                (ord c2 - 48) (ord c3 - 48) (ord c4 - 97) (ord c5 - 97)
                (ord c6 - 48) (ord c7 - 48))
      as (la & lo & D & Ela & Elo); try assumption; try reflexivity.
    exists la, lo. split; [exact D|].
    destruct (encoder_of_indices la lo (ord c0 - 65) (ord c1 - 65)
                (ord c2 - 48) (ord c3 - 48) (ord c4 - 97) (ord c5 - 97)
                (ord c6 - 48) (ord c7 - 48) (1 # 240) (1 # 480))
      as (_ & _ & S8);
      try assumption; try lia;
      try (change (inject_Z 0) with 0; change (inject_Z 5) with 5; lra).
    unfold locator_precision; cbn [String.length]. rewrite S8.
    unfold text4, text2. rewrite !letter_ord by lia. reflexivity.
Qed.

Lemma locator_decode_encode_witness :
  exists lat lon,
    from_grid_locator "BL11bh16" = Ok (lat, lon)
    /\ to_grid_locator lat lon (locator_precision "BL11bh16") = Ok "BL11bh16".
Proof. apply (locator_decode_encode "BL11bh16"). reflexivity. Defined.

(** X2: On its whole accepted domain the encoder returns 4, 6 and 8 characters
    at the three precisions, each the beginning of the next. *)
Theorem to_grid_locator_prefixes (lat lon : Q) :
  -90 <= lat -> lat <= 90 -> -180 <= lon -> lon <= 180 ->
  exists s4 s6 s8,
    to_grid_locator lat lon "square" = Ok s4
    /\ to_grid_locator lat lon "subsquare" = Ok s6
    /\ to_grid_locator lat lon "extsquare" = Ok s8
    /\ String.length s4 = 4%nat /\ String.length s6 = 6%nat
    /\ String.length s8 = 8%nat
    /\ s4 = substring 0 4 s8 /\ s6 = substring 0 6 s8.
Proof.
  intros Hl1 Hl2 Hg1 Hg2.
  destruct (encoder_shape lat lon Hl1 Hl2 Hg1 Hg2) as
    (f0 & f1 & s2 & s3 & u4 & u5 & e6 & e7 & rx & ry & _ & _ & _ & _ & _
     & S4 & S6 & S8).
  eexists; eexists; eexists.
  split; [exact S4|]. split; [exact S6|]. split; [exact S8|].
  repeat split; reflexivity.
Qed.

Lemma to_grid_locator_prefixes_witness :
  exists s4 s6 s8,
    to_grid_locator 90 (-180) "square" = Ok s4
    /\ to_grid_locator 90 (-180) "subsquare" = Ok s6
    /\ to_grid_locator 90 (-180) "extsquare" = Ok s8
    /\ String.length s4 = 4%nat /\ String.length s6 = 6%nat
    /\ String.length s8 = 8%nat
    /\ s4 = substring 0 4 s8 /\ s6 = substring 0 6 s8.
Proof. apply (to_grid_locator_prefixes 90 (-180)); lra. Defined.

Lemma in_range_shift (lo hi b v : Z) :
  in_range lo hi (v - b) = in_range (lo + b) (hi + b) v.
Proof.
  unfold in_range.
  destruct (Z.leb_spec lo (v - b)); destruct (Z.leb_spec (lo + b) v);
    destruct (Z.leb_spec (v - b) hi); destruct (Z.leb_spec v (hi + b));
    simpl; try reflexivity; lia.
Qed.

Lemma int_of_char_spec (c : ascii) :
  int_of_char c
  = if spec_digit_char c then Ok (ord c - 48)%Z
    else Raise (ValueError "invalid literal for int() with base 10").
Proof.
  unfold int_of_char, spec_digit_char. cbv zeta.
  change ((0 <=? ord c - 48)%Z && (ord c - 48 <=? 9)%Z)
    with (in_range 0 9 (ord c - 48)).
  rewrite in_range_shift. reflexivity.
Qed.

Lemma field_range_char (c : ascii) :
  in_range 0 17 (ord c - 65) = spec_field_char c.
Proof. rewrite in_range_shift. reflexivity. Qed.

Lemma digit_range_char (c : ascii) :
  in_range 0 9 (ord c - 48) = spec_digit_char c.
Proof. rewrite in_range_shift. reflexivity. Qed.

Lemma subsquare_range_char (c : ascii) :
  in_range 0 23 (ord c - 97) = spec_subsquare_char c.
Proof. rewrite in_range_shift. reflexivity. Qed.

Ltac decoder_cases :=
  unfold from_grid_locator, spec_valid_locator, lower_subsquare;
  cbn [String.length Nat.eqb Nat.leb orb negb andb list_ascii_of_string nth
       bind is_ok];
  rewrite ?int_of_char_spec;
  repeat match goal with
    | |- context [spec_digit_char ?c] =>
        let E := fresh "E" in
        destruct (spec_digit_char c) eqn:E;
        cbn [bind app zth nth is_ok orb negb andb];
        rewrite ?digit_range_char, ?E
    end;
  cbn [bind app zth nth is_ok orb negb andb];
  rewrite ?field_range_char, ?subsquare_range_char, ?digit_range_char;
  repeat match goal with
    | H : spec_digit_char ?c = _ |- context [spec_digit_char ?c] => rewrite H
    end;
  repeat match goal with
    | |- context [spec_field_char ?c] => destruct (spec_field_char c)
    | |- context [spec_subsquare_char ?c] => destruct (spec_subsquare_char c)
    end;
  try reflexivity; try congruence.

Lemma decoder_accepts (s : string) :
  is_ok (from_grid_locator s) = spec_valid_locator (lower_subsquare s).
Proof.
  destruct s as [|c0 [|c1 [|c2 [|c3 [|c4 [|c5 [|c6 [|c7 [|c8 s]]]]]]]]];
    try reflexivity.
  - decoder_cases.
  - decoder_cases.
  - decoder_cases.
Qed.

(** X3: [from_grid_locator] returns a position exactly for the strings that are
    valid locators once the subsquare letters are put in lower case. *)
Theorem from_grid_locator_accepts (s : string) :
  is_ok (from_grid_locator s) = spec_valid_locator (lower_subsquare s).
Proof. exact (decoder_accepts s). Qed.

Lemma lower_idem (c : ascii) : lower (lower c) = lower c.
Proof.
  destruct ((65 <=? ord c)%Z && (ord c <=? 90)%Z) eqn:E.
  - assert (L : lower c = ascii_of_N (Z.to_N (ord c + 32)))
      by (unfold lower; rewrite E; reflexivity).
    apply andb_true_iff in E. destruct E as [E1 E2].
    apply Z.leb_le in E1, E2.
    rewrite L. unfold lower. rewrite ord_ascii_of by lia.
    replace (ord c + 32 <=? 90)%Z with false by (symmetry; apply Z.leb_gt; lia).
    rewrite andb_false_r. reflexivity.
  - assert (L : lower c = c) by (unfold lower; rewrite E; reflexivity).
    rewrite L. exact L.
Qed.

(** X4: The decoder ignores the case of the subsquare letters: on strings of
    4, 6 or 8 characters it returns the same result, or raises the same
    error, for the string and for the string with its subsquare in lower
    case. *)
Theorem from_grid_locator_subsquare_case (s : string) :
  String.length s = 4%nat \/ String.length s = 6%nat \/ String.length s = 8%nat ->
  from_grid_locator (lower_subsquare s) = from_grid_locator s.
Proof.
  intros H.
  destruct s as [|c0 [|c1 [|c2 [|c3 [|c4 [|c5 [|c6 [|c7 [|c8 s]]]]]]]]];
    cbn [String.length] in H; try reflexivity;
    try (exfalso; lia);
    unfold from_grid_locator, lower_subsquare;
    cbn [String.length Nat.eqb Nat.leb orb negb andb list_ascii_of_string nth];
    rewrite !lower_idem; reflexivity.
Qed.

Lemma from_grid_locator_subsquare_case_witness :
  from_grid_locator (lower_subsquare "IO92VA") = from_grid_locator "IO92VA".
Proof.
  apply (from_grid_locator_subsquare_case "IO92VA"). right; left; reflexivity.
Defined.

Example lower_subsquare_example : lower_subsquare "IO92VA" = "IO92va".
Proof. reflexivity. Qed.

(** X5: Every position the decoder returns lies strictly inside the ranges of
    latitude and longitude. *)
Theorem from_grid_locator_in_range (s : string) (lat lon : Q) :
  from_grid_locator s = Ok (lat, lon) ->
  -90 < lat /\ lat < 90 /\ -180 < lon /\ lon < 180.
Proof.
  intros E.
  assert (V : spec_valid_locator (lower_subsquare s) = true)
    by (rewrite <- decoder_accepts, E; reflexivity).
  unfold spec_valid_locator in V.
  destruct s as [|c0 [|c1 [|c2 [|c3 [|c4 [|c5 [|c6 [|c7 [|c8 s]]]]]]]]];
    cbn [lower_subsquare list_ascii_of_string] in V; try discriminate V;
    split_valid V.
  - destruct (decode4 c0 c1 c2 c3 (ord c0 - 65) (ord c1 - 65)
                (ord c2 - 48) (ord c3 - 48))
      as (la & lo & D & Ela & Elo); try assumption; try reflexivity.
    rewrite D in E. injection E as <- <-.
    repeat match goal with
      | H : (_ <= _ <= _)%Z |- _ =>
          apply inject_Z_range in H; destruct H
      end.
    change (inject_Z 0) with 0 in *. change (inject_Z 9) with 9 in *.
    change (inject_Z 17) with 17 in *.
    repeat split; lra.
  - destruct (decode6 c0 c1 c2 c3 c4 c5 (ord c0 - 65) (ord c1 - 65)
                (ord c2 - 48) (ord c3 - 48) (ord (lower c4) - 97)
                (ord (lower c5) - 97))
      as (la & lo & D & Ela & Elo); try assumption; try reflexivity.
    rewrite D in E. injection E as <- <-.
    repeat match goal with
      | H : (_ <= _ <= _)%Z |- _ =>
          apply inject_Z_range in H; destruct H
      end.
    change (inject_Z 0) with 0 in *. change (inject_Z 9) with 9 in *.
    change (inject_Z 17) with 17 in *. change (inject_Z 23) with 23 in *.
    repeat split; lra.
  - destruct (decode8 c0 c1 c2 c3 c4 c5 c6 c7 (ord c0 - 65) (ord c1 - 65)
                (ord c2 - 48) (ord c3 - 48) (ord (lower c4) - 97)
                (ord (lower c5) - 97) (ord c6 - 48) (ord c7 - 48))
      as (la & lo & D & Ela & Elo); try assumption; try reflexivity.
    rewrite D in E. injection E as <- <-.
    repeat match goal with
      | H : (_ <= _ <= _)%Z |- _ =>
          apply inject_Z_range in H; destruct H
      end.
    change (inject_Z 0) with 0 in *. change (inject_Z 9) with 9 in *.
    change (inject_Z 17) with 17 in *. change (inject_Z 23) with 23 in *.
    repeat split; lra.
Qed.

Lemma from_grid_locator_in_range_witness :
  exists lat lon,
    from_grid_locator "RR99xx99" = Ok (lat, lon)
    /\ (-90 < lat /\ lat < 90 /\ -180 < lon /\ lon < 180).
Proof.
  eexists; eexists. split; [vm_compute; reflexivity|].
  eapply (from_grid_locator_in_range "RR99xx99"). vm_compute. reflexivity.
Defined.

Lemma Qle_bool_and (a x b : Q) :
  Qle_bool a x && Qle_bool x b = true <-> a <= x /\ x <= b.
Proof.
  rewrite andb_true_iff, !Qle_bool_iff. reflexivity.
Qed.

(** X6: [to_grid_locator] returns a locator exactly when the precision is one
    of the three names and the position is in [-90, 90] x [-180, 180], both
    ends included. *)
Theorem to_grid_locator_accepts (lat lon : Q) (p : string) :
  is_ok (to_grid_locator lat lon p) = true
  <-> valid_precision p
      /\ (-90 <= lat /\ lat <= 90) /\ (-180 <= lon /\ lon <= 180).
Proof.
  split.
  - unfold to_grid_locator.
    destruct (String.eqb p "square" || String.eqb p "subsquare"
              || String.eqb p "extsquare") eqn:Ep; cbn [negb];
      [|discriminate].
    destruct (Qle_bool (-90) lat && Qle_bool lat 90) eqn:El; cbn [negb];
      [|discriminate].
    destruct (Qle_bool (-180) lon && Qle_bool lon 180) eqn:Eg; cbn [negb];
      [|discriminate].
    intros _. apply Qle_bool_and in El, Eg.
    split; [|split; assumption].
    apply orb_true_iff in Ep. destruct Ep as [Ep|Ep].
    + apply orb_true_iff in Ep. destruct Ep as [Ep|Ep];
        apply String.eqb_eq in Ep; [left | right; left]; exact Ep.
    + apply String.eqb_eq in Ep. right; right; exact Ep.
  - intros (Hp & (Hl1 & Hl2) & (Hg1 & Hg2)).
    destruct (encoder_shape lat lon Hl1 Hl2 Hg1 Hg2) as
      (f0 & f1 & s2 & s3 & u4 & u5 & e6 & e7 & rx & ry & _ & _ & _ & _ & _
       & S4 & S6 & S8).
    destruct Hp as [-> | [-> | ->]];
      [rewrite S4 | rewrite S6 | rewrite S8]; reflexivity.
Qed.

(** * Further properties of [to_dms] and [to_dd] *)

(** What [to_dms] computes for a non-zero angle: the sign, and the whole
    arcseconds of the magnitude split in base 60. *)
Lemma to_dms_shape (x : Q) :
  ~ x == 0 ->
  exists sign d m s : Z,
    ((0 < x /\ sign = 1%Z) \/ (x < 0 /\ sign = (-1)%Z))
    /\ (0 <= d)%Z /\ (0 <= m < 60)%Z /\ (0 <= s < 60)%Z
    /\ inject_Z (3600 * d + 60 * m + s) <= Qabs x * 3600
    /\ Qabs x * 3600 < inject_Z (3600 * d + 60 * m + s) + 1
    /\ forall style,
         to_dms x style
         = if String.eqb style "dms"
           then Ok (Dms (sign * d) (sign * m) (sign * s))
           else if String.eqb style "dm"
           then Ok (Dm (sign * d)
                       (inject_Z sign * (inject_Z m + inject_Z s / 60)))
           else Raise (ValueError ("Unknown style type `" ++ style ++ "'")).
Proof.
  intros Hx.
  destruct (dms_sign x Hx) as [Ediv Hsign].
  assert (Ha : 0 < Qabs x).
  { destruct Hsign as [(P & Ea & _)|(N & Ea & _)]; lra. }
  destruct (dms_magnitude (Qabs x) Ha)
    as (m & S & E1 & E2 & EA & HS1 & HS2 & Hd & Hr & L3 & U3 & Hs).
  set (d := Qfloor (inject_Z m / 60)) in *.
  assert (Er : py_int (inject_Z m - 60 * inject_Z d) = (m - 60 * d)%Z).
  { rewrite (py_int_comp _ (inject_Z (m - 60 * d))); [apply py_int_inject|].
    unfold Zminus. rewrite inject_Z_plus, inject_Z_opp, inject_Z_mult.
    change (inject_Z 60) with 60. lra. }
  set (s := py_int S) in *.
  assert (Hs60 : (s < 60)%Z).
  { rewrite Zlt_Qlt. change (inject_Z 60) with 60. lra. }
  assert (Et : inject_Z (3600 * d + 60 * (m - 60 * d) + s)
               == 60 * inject_Z m + inject_Z s).
  { replace (3600 * d + 60 * (m - 60 * d) + s)%Z with (60 * m + s)%Z by lia.
    rewrite inject_Z_plus, inject_Z_mult. change (inject_Z 60) with 60.
    reflexivity. }
  exists (py_int (x / Qabs x)), d, (m - 60 * d)%Z, s.
  split.
  { destruct Hsign as [(P & _ & E)|(N & _ & E)];
      [left | right]; split; assumption. }
  split; [exact Hd|]. split; [exact Hr|]. split; [lia|].
  split; [rewrite Et; lra|]. split; [rewrite Et; lra|].
  intros style. unfold to_dms. rewrite Ediv. cbn [bind]. rewrite E1.
  cbn [bind]. rewrite E2. cbn [bind]. rewrite py_int_inject, Er.
  fold d s. reflexivity.
Qed.





(** Base 60 digits are unique. *)
Lemma base60_unique (d m s d' m' s' : Z) :
  (0 <= m < 60)%Z -> (0 <= s < 60)%Z -> (0 <= m' < 60)%Z -> (0 <= s' < 60)%Z ->
  (3600 * d + 60 * m + s = 3600 * d' + 60 * m' + s')%Z ->
  d = d' /\ m = m' /\ s = s'.
Proof. intros. lia. Qed.

Lemma whole_part_unique (a : Q) (t t' : Z) :
  inject_Z t <= a -> a < inject_Z t + 1 ->
  inject_Z t' <= a -> a < inject_Z t' + 1 -> t = t'.
Proof.
  intros L U L' U'.
  assert (A1 : inject_Z t < inject_Z (t' + 1)).
  { rewrite inject_Z_plus. change (inject_Z 1) with 1. lra. }
  assert (A2 : inject_Z t' < inject_Z (t + 1)).
  { rewrite inject_Z_plus. change (inject_Z 1) with 1. lra. }
  rewrite <- Zlt_Qlt in A1, A2. lia.
Qed.

Lemma Qmult_inject_opp (k : Z) (v : Q) :
  inject_Z (- k) * v = - (inject_Z k * v).
Proof.
  destruct v as [n q]. unfold Qmult, Qopp, inject_Z. cbn [Qnum Qden].
  f_equal. lia.
Qed.

(** X9: [to_dms] is odd: negating the angle negates every part of the tuple,
    and an angle that raises does so with the same error after negation. *)
Theorem to_dms_opp (x : Q) (style : string) :
  to_dms (- x) style
  = match to_dms x style with
    | Ok parts => Ok (opp_parts parts)
    | Raise e => Raise e
    end.
Proof.
  destruct (Qeq_dec x 0) as [Z|Hx].
  - unfold to_dms, py_div.
    rewrite (Qeq_bool_true (Qabs (- x)) 0) by (rewrite Z; reflexivity).
    rewrite (Qeq_bool_true (Qabs x) 0) by (rewrite Z; reflexivity).
    reflexivity.
  - assert (Hx' : ~ - x == 0) by (intros H; apply Hx; lra).
    destruct (to_dms_shape x Hx)
      as (sign & d & m & s & Hsign & Hd & Hm & Hs & L & U & E).
    destruct (to_dms_shape (- x) Hx')
      as (sign' & d' & m' & s' & Hsign' & Hd' & Hm' & Hs' & L' & U' & E').
    rewrite Qabs_opp in L', U'.
    pose proof (whole_part_unique _ _ _ L U L' U') as T.
    destruct (base60_unique _ _ _ _ _ _ Hm Hs Hm' Hs' T) as (<- & <- & <-).
    assert (S' : sign' = (- sign)%Z).
    { destruct Hsign as [(P & ->)|(N & ->)];
        destruct Hsign' as [(P' & ->)|(N' & ->)];
        try reflexivity; exfalso; lra. }
    subst sign'. rewrite E, E'.
    destruct (String.eqb style "dms");
      [cbn [opp_parts]; rewrite !Z.mul_opp_l; reflexivity|].
    destruct (String.eqb style "dm"); [|reflexivity].
    cbn [opp_parts]. rewrite Z.mul_opp_l, Qmult_inject_opp. reflexivity.
Qed.



(** * Further properties of the ISO 6709 code *)







(** * Properties of the distance conversions *)

Local Open Scope R_scope.

Lemma known_unit_cases (format : string) :
  known_unit format
  \/ (String.eqb format "metric" = false
      /\ String.eqb format "imperial" || String.eqb format "US customary"
         = false
      /\ String.eqb format "nautical" = false).
Proof.
  unfold known_unit.
  destruct (String.eqb_spec format "metric") as [E|_]; [auto|].
  destruct (String.eqb_spec format "imperial") as [E|_]; [auto|].
  destruct (String.eqb_spec format "US customary") as [E|_]; [auto|].
  destruct (String.eqb_spec format "nautical") as [E|_]; [auto 6|].
  right. repeat split; reflexivity.
Qed.

(** X13: With a known unit the two conversions are inverse to each other, in
    both orders (on real numbers, where no rounding takes place). *)
Theorem distance_angle_round_trip (x : R) (format : string) :
  known_unit format ->
  (d <- angle_to_distance x format ;; distance_to_angle d format) = Ok x
  /\ (a <- distance_to_angle x format ;; angle_to_distance a format) = Ok x.
Proof.
  pose proof PI_neq0 as HPI.
  intros [-> | [-> | [-> | ->]]];
    unfold angle_to_distance, distance_to_angle;
    cbn [String.eqb Ascii.eqb Bool.eqb orb bind];
    split; f_equal;
    unfold degrees, radians, BODY_RADIUS, STATUTE_MILE, NAUTICAL_MILE;
    field; repeat split; try exact HPI; lra.
Qed.

Lemma distance_angle_round_trip_witness :
  (d <- angle_to_distance 360 "imperial" ;; distance_to_angle d "imperial")
  = Ok 360
  /\ (a <- distance_to_angle 360 "imperial" ;; angle_to_distance a "imperial")
     = Ok 360.
Proof.
  apply (distance_angle_round_trip 360 "imperial").
  right; left; reflexivity.
Defined.

(** X14: Both conversions accept the same four unit names and raise the same
    ValueError, which names the unit, on every other one. *)
Theorem distance_units (x y : R) (format : string) :
  (known_unit format
   /\ is_ok (angle_to_distance x format) = true
   /\ is_ok (distance_to_angle y format) = true)
  \/ (~ known_unit format
      /\ angle_to_distance x format
         = Raise (ValueError ("Unknown unit type `" ++ format ++ "'"))
      /\ distance_to_angle y format
         = Raise (ValueError ("Unknown unit type `" ++ format ++ "'"))).
Proof.
  destruct (known_unit_cases format) as [K|(E1 & E2 & E3)].
  - left. split; [exact K|].
    destruct K as [-> | [-> | [-> | ->]]]; split; reflexivity.
  - right. split.
    + intros [-> | [-> | [-> | ->]]]; discriminate.
    + unfold angle_to_distance, distance_to_angle.
      rewrite E1, E2, E3. split; reflexivity.
Qed.

Local Close Scope R_scope.

(** * Further properties of the clock of [sun_rise_set] *)

Local Open Scope R_scope.








(** X17: Whether the event takes place does not depend on the time zone: if
    [sun_rise_set] returns [None] for one offset, it does for every
    offset. *)
Theorem sun_rise_set_none_any_timezone (latitude longitude : R) (d : date)
        (mode : string) (zenith : option string) (tz tz' : Z) :
  sun_rise_set latitude longitude d mode tz zenith = Ok None
  <-> sun_rise_set latitude longitude d mode tz' zenith = Ok None.
Proof.
  unfold sun_rise_set.
  destruct (sun_position latitude longitude d mode zenith)
    as [[[t ra] cosH]|e]; cbn [bind]; [|tauto].
  destruct (Rlt_dec 1 cosH) as [_|_]; [tauto|].
  destruct (Rlt_dec cosH (-1)) as [_|_]; [tauto|].
  destruct (math_acos cosH) as [angle|e]; cbn [bind]; [|tauto].
  split; intros H;
    match type of H with
    | context [local_clock ?x] => destruct (local_clock x); discriminate H
    end.
Qed.

Local Close Scope R_scope.

(** * Writing and reading back ISO 6709 texts *)

Lemma z_range_in (lo : Z) (count : nat) (n : Z) :
  (lo <= n < lo + Z.of_nat count)%Z -> In n (z_range lo count).
Proof.
  intros H. unfold z_range. apply in_map_iff.
  exists (Z.to_nat (n - lo)). split; [lia|].
  apply in_seq. lia.
Qed.

(** The texts [%+03i], [%+04i] and [%02i] give for the integers a
    coordinate is made of. *)
Lemma fmt_i_latitude (n : Z) :
  (-90 <= n <= 90)%Z ->
  signed_digits 2 n (list_ascii_of_string (fmt_i true 3 (inject_Z n))) = true.
Proof.
  intros H.
  assert (T : forallb (fun n => signed_digits 2 n
                (list_ascii_of_string (fmt_i true 3 (inject_Z n))))
                (z_range (-90) 181) = true) by (vm_compute; reflexivity).
  rewrite forallb_forall in T. apply T, z_range_in. lia.
Qed.

Lemma fmt_i_longitude (n : Z) :
  (-180 <= n <= 180)%Z ->
  signed_digits 3 n (list_ascii_of_string (fmt_i true 4 (inject_Z n))) = true.
Proof.
  intros H.
  assert (T : forallb (fun n => signed_digits 3 n
                (list_ascii_of_string (fmt_i true 4 (inject_Z n))))
                (z_range (-180) 361) = true) by (vm_compute; reflexivity).
  rewrite forallb_forall in T. apply T, z_range_in. lia.
Qed.


Lemma fmt_i_truncates (plus : bool) (width : Z) (x : Q) :
  fmt_i plus width x = fmt_i plus width (inject_Z (py_int x)).
Proof. unfold fmt_i. rewrite py_int_inject. reflexivity. Qed.

Lemma plain_digits_spec (len : nat) (n : Z) (cs : list ascii) :
  plain_digits len n cs = true ->
  List.length cs = len /\ forallb is_digit cs = true /\ digits_value cs = n.
Proof.
  unfold plain_digits. rewrite !andb_true_iff.
  intros [[H1 H2] H3]. apply Nat.eqb_eq in H1. apply Z.eqb_eq in H3. auto.
Qed.

Lemma signed_digits_spec (len : nat) (n : Z) (cs : list ascii) :
  signed_digits len n cs = true ->
  exists sg body,
    cs = sg :: body /\ is_sign sg = true
    /\ Ascii.eqb sg "-" = (n <? 0)%Z
    /\ List.length body = len /\ forallb is_digit body = true
    /\ digits_value body = Z.abs n.
Proof.
  destruct cs as [|sg body]; [discriminate|].
  unfold signed_digits. rewrite andb_true_iff. intros [H1 H2].
  apply Ascii.eqb_eq in H1. apply plain_digits_spec in H2.
  destruct H2 as (L & D & V).
  exists sg, body. split; [reflexivity|].
  split; [subst sg; destruct (n <? 0)%Z; reflexivity|].
  split; [subst sg; destruct (n <? 0)%Z; reflexivity|]. auto.
Qed.

Lemma list_ascii_of_string_app (a b : string) :
  list_ascii_of_string (a ++ b)
  = (list_ascii_of_string a ++ list_ascii_of_string b)%list.
Proof. induction a as [|c a IH]; [reflexivity|]. simpl. rewrite IH. reflexivity. Qed.

Lemma string_of_list_ascii_app (a b : list ascii) :
  string_of_list_ascii (a ++ b)
  = string_of_list_ascii a ++ string_of_list_ascii b.
Proof. induction a as [|c a IH]; [reflexivity|]. simpl. rewrite IH. reflexivity. Qed.

(** ** The characters of the pattern *)

Lemma digit_is_digit_or_dot (c : ascii) :
  is_digit c = true -> is_digit_or_dot c = true.
Proof. intros H. unfold is_digit_or_dot. rewrite H. reflexivity. Qed.

Lemma is_digit_cases (c : ascii) :
  is_digit c = true ->
  In c ["0"; "1"; "2"; "3"; "4"; "5"; "6"; "7"; "8"; "9"]%char.
Proof.
  destruct c as [[] [] [] [] [] [] [] []]; intros H;
    try discriminate H; simpl; tauto.
Qed.

Lemma digit_not_dot (c : ascii) :
  is_digit c = true -> Ascii.eqb c "." = false.
Proof.
  intros H. apply is_digit_cases in H. simpl in H.
  repeat (destruct H as [<-|H]; [reflexivity|]). contradiction.
Qed.


Lemma sign_cases (c : ascii) : is_sign c = true -> c = "-"%char \/ c = "+"%char.
Proof.
  unfold is_sign. rewrite orb_true_iff.
  intros [H|H]; apply Ascii.eqb_eq in H; auto.
Qed.

Lemma sign_not_digit_or_dot (c : ascii) :
  is_sign c = true -> is_digit_or_dot c = false.
Proof. intros H. destruct (sign_cases c H) as [-> | ->]; reflexivity. Qed.

Lemma sign_not_dot (c : ascii) : is_sign c = true -> Ascii.eqb c "." = false.
Proof. intros H. destruct (sign_cases c H) as [-> | ->]; reflexivity. Qed.

Lemma forallb_weaken (p q : ascii -> bool) (l : list ascii) :
  (forall c, p c = true -> q c = true) ->
  forallb p l = true -> forallb q l = true.
Proof.
  intros I H. rewrite forallb_forall in *. intros c Hc. apply I, H, Hc.
Qed.

(** [span] takes a run of accepted characters up to the first refused
    one. *)
Lemma span_run (p : ascii -> bool) (body rest : list ascii) :
  forallb p body = true ->
  match rest with c :: _ => p c = false | [] => True end ->
  span p (body ++ rest) = (body, rest).
Proof.
  intros Hb Hr. induction body as [|c body IH].
  - simpl. destruct rest as [|c rest]; [reflexivity|].
    simpl. rewrite Hr. reflexivity.
  - simpl in Hb. apply andb_true_iff in Hb. destruct Hb as [Hc Hb].
    simpl. rewrite Hc, (IH Hb). reflexivity.
Qed.

Lemma signed_group_run (sg : ascii) (body rest : list ascii) :
  is_sign sg = true -> forallb is_digit body = true -> body <> [] ->
  match rest with c :: _ => is_digit_or_dot c = false | [] => True end ->
  signed_group ((sg :: body) ++ rest) = Some (sg :: body, rest).
Proof.
  intros Hs Hb Hn Hr. simpl. rewrite Hs.
  rewrite (span_run is_digit_or_dot body rest);
    [| exact (forallb_weaken _ _ _ digit_is_digit_or_dot Hb) | exact Hr].
  destruct body; [contradiction|reflexivity].
Qed.

(** The pattern on a signed latitude, a signed longitude, no altitude and
    the solidus. *)
Lemma match_iso6709_pair (sa sb : ascii) (ba bb : list ascii) :
  is_sign sa = true -> forallb is_digit ba = true -> ba <> [] ->
  is_sign sb = true -> forallb is_digit bb = true -> bb <> [] ->
  match_iso6709 (string_of_list_ascii (sa :: ba)
                 ++ string_of_list_ascii (sb :: bb) ++ "/")
  = Some (string_of_list_ascii (sa :: ba), string_of_list_ascii (sb :: bb),
          None).
Proof.
  intros Hsa Hba Hna Hsb Hbb Hnb. unfold match_iso6709.
  rewrite !list_ascii_of_string_app, !list_ascii_of_string_of_list_ascii.
  rewrite (signed_group_run sa ba _ Hsa Hba Hna)
    by (exact (sign_not_digit_or_dot sb Hsb)).
  change (list_ascii_of_string "/") with ["/"%char].
  rewrite (signed_group_run sb bb ["/"%char] Hsb Hbb Hnb) by reflexivity.
  reflexivity.
Qed.

Lemma head_length_signed (sg : ascii) (body : list ascii) :
  is_sign sg = true -> forallb is_digit body = true ->
  head_length (string_of_list_ascii (sg :: body)) = S (List.length body).
Proof.
  intros Hs Hb. unfold head_length.
  rewrite list_ascii_of_string_of_list_ascii.
  cbn [span]. rewrite (sign_not_dot sg Hs). cbn [negb].
  pose proof (span_run (fun c => negb (Ascii.eqb c ".")) body []) as R.
  rewrite app_nil_r in R. rewrite R; [reflexivity| |exact I].
  apply (forallb_weaken is_digit); [|exact Hb].
  intros c Hc. rewrite (digit_not_dot c Hc). reflexivity.
Qed.


Lemma py_float_signed (sg : ascii) (body : list ascii) :
  is_sign sg = true -> forallb is_digit body = true -> body <> [] ->
  exists q, py_float (string_of_list_ascii (sg :: body)) = Ok q
            /\ q == (if Ascii.eqb sg "-" then - inject_Z (digits_value body)
                     else inject_Z (digits_value body)).
Proof.
  intros Hs Hb Hn. unfold py_float.
  rewrite list_ascii_of_string_of_list_ascii. rewrite Hs.
  pose proof (span_run is_digit body [] Hb I) as R.
  rewrite app_nil_r in R. rewrite R.
  rewrite app_nil_r. destruct body as [|c body]; [contradiction|].
  eexists. split; [reflexivity|].
  change (digits_value []) with 0%Z.
  unfold Qdiv. change (inject_Z 0 * / inject_Z (10 ^ Z.of_nat (List.length (@nil ascii))))
    with 0.
  destruct (Ascii.eqb sg "-"); ring.
Qed.

Lemma py_int_bounds (x : Q) (k : Z) :
  - inject_Z k <= x -> x <= inject_Z k -> (- k <= py_int x <= k)%Z.
Proof.
  intros L U. destruct (Qlt_le_dec x 0) as [N|P].
  - assert (E : py_int x = (- py_int (- x))%Z) by (rewrite py_int_opp; lia).
    rewrite E, py_int_floor by lra.
    assert (A : (0 <= Qfloor (- x))%Z).
    { change 0%Z with (Qfloor 0). apply Qfloor_resp_le. lra. }
    assert (B : (Qfloor (- x) <= k)%Z).
    { rewrite <- (Qfloor_Z k). apply Qfloor_resp_le. lra. }
    lia.
  - rewrite py_int_floor by exact P.
    assert (A : (0 <= Qfloor x)%Z).
    { change 0%Z with (Qfloor 0). apply Qfloor_resp_le. exact P. }
    assert (B : (Qfloor x <= k)%Z).
    { rewrite <- (Qfloor_Z k). apply Qfloor_resp_le. exact U. }
    lia.
Qed.

Lemma signed_value (sg : ascii) (n v : Z) (q : Q) :
  Ascii.eqb sg "-" = (n <? 0)%Z -> v = Z.abs n ->
  q == (if Ascii.eqb sg "-" then - inject_Z v else inject_Z v) ->
  q == inject_Z n.
Proof.
  intros -> -> ->. destruct (Z.ltb_spec n 0) as [N|P].
  - rewrite <- inject_Z_opp. replace (- Z.abs n)%Z with n by lia. reflexivity.
  - replace (Z.abs n) with n by lia. reflexivity.
Qed.

Lemma nonempty_of_length (A : Type) (l : list A) (n : nat) :
  List.length l = S n -> l <> [].
Proof. intros H E. subst l. discriminate H. Qed.

(** What [from_iso6709] reads in a text made of a sign and two digits, a
    sign and three digits, and the solidus. *)
Lemma from_iso6709_degrees (sa sb : ascii) (ba bb : list ascii) :
  is_sign sa = true -> forallb is_digit ba = true -> List.length ba = 2%nat ->
  is_sign sb = true -> forallb is_digit bb = true -> List.length bb = 3%nat ->
  exists la lo,
    from_iso6709 (string_of_list_ascii (sa :: ba)
                  ++ string_of_list_ascii (sb :: bb) ++ "/")
    = Ok (la, lo, None)
    /\ la == (if Ascii.eqb sa "-" then - inject_Z (digits_value ba)
              else inject_Z (digits_value ba))
    /\ lo == (if Ascii.eqb sb "-" then - inject_Z (digits_value bb)
              else inject_Z (digits_value bb)).
Proof.
  intros Hsa Hba La Hsb Hbb Lb.
  pose proof (nonempty_of_length _ _ _ La) as Na.
  pose proof (nonempty_of_length _ _ _ Lb) as Nb.
  destruct (py_float_signed sa ba Hsa Hba Na) as (qa & Ea & Va).
  destruct (py_float_signed sb bb Hsb Hbb Nb) as (qb & Eb & Vb).
  exists qa, qb. split; [|split; assumption].
  unfold from_iso6709.
  rewrite (match_iso6709_pair sa sb ba bb Hsa Hba Na Hsb Hbb Nb).
  cbv beta iota zeta.
  rewrite (head_length_signed sa ba Hsa Hba), La.
  rewrite (head_length_signed sb bb Hsb Hbb), Lb.
  cbn [Nat.eqb]. rewrite Ea. cbn [bind]. rewrite Eb. cbn [bind].
  reflexivity.
Qed.

(** X18: Written in format [d] without altitude and read back, a position
    within [-90, 90] x [-180, 180] comes back with each coordinate
    truncated to whole degrees. *)
Theorem iso6709_d_round_trip (latitude longitude : Q) (precision : Z) :
  -90 <= latitude -> latitude <= 90 ->
  -180 <= longitude -> longitude <= 180 ->
  exists la lo,
    (text <- to_iso6709 latitude longitude None "d" precision ;;
     from_iso6709 text) = Ok (la, lo, None)
    /\ la == inject_Z (py_int latitude)
    /\ lo == inject_Z (py_int longitude).
Proof.
  intros L1 U1 L2 U2.
  pose proof (py_int_bounds latitude 90 L1 U1) as Ba.
  pose proof (py_int_bounds longitude 180 L2 U2) as Bb.
  destruct (signed_digits_spec _ _ _ (fmt_i_latitude _ Ba))
    as (sa & ba & Ea & Hsa & Ga & La & Hba & Va).
  destruct (signed_digits_spec _ _ _ (fmt_i_longitude _ Bb))
    as (sb & bb & Eb & Hsb & Gb & Lb & Hbb & Vb).
  destruct (from_iso6709_degrees sa sb ba bb Hsa Hba La Hsb Hbb Lb)
    as (la & lo & E & Qa & Qb).
  exists la, lo.
  split; [|split; [exact (signed_value _ _ _ _ Ga Va Qa)
                  | exact (signed_value _ _ _ _ Gb Vb Qb)]].
  unfold to_iso6709. cbn [String.eqb Ascii.eqb Bool.eqb bind].
  rewrite (fmt_i_truncates true 3 latitude), (fmt_i_truncates true 4 longitude).
  rewrite <- (string_of_list_ascii_of_string
                (fmt_i true 3 (inject_Z (py_int latitude)))), Ea.
  rewrite <- (string_of_list_ascii_of_string
                (fmt_i true 4 (inject_Z (py_int longitude)))), Eb.
  rewrite string_app_assoc. exact E.
Qed.

Lemma iso6709_d_round_trip_witness :
  exists la lo,
    (text <- to_iso6709 (-52015 # 1000) (221 # 1000) None "d" 4 ;;
     from_iso6709 text) = Ok (la, lo, None)
    /\ la == inject_Z (py_int (-52015 # 1000))
    /\ lo == inject_Z (py_int (221 # 1000)).
Proof.
  apply (iso6709_d_round_trip (-52015 # 1000) (221 # 1000) 4); lra.
Defined.






Lemma span_parts (p : ascii -> bool) (cs taken others : list ascii) :
  span p cs = (taken, others) -> cs = (taken ++ others)%list.
Proof.
  revert taken others. induction cs as [|c cs IH]; intros taken others H.
  - injection H as <- <-. reflexivity.
  - simpl in H. destruct (p c).
    + destruct (span p cs) as [t o]. injection H as <- <-.
      simpl. rewrite (IH t o eq_refl). reflexivity.
    + injection H as <- <-. reflexivity.
Qed.

Lemma signed_group_parts (cs group rest : list ascii) :
  signed_group cs = Some (group, rest) ->
  cs = (group ++ rest)%list
  /\ exists sg body, group = sg :: body /\ is_sign sg = true.
Proof.
  destruct cs as [|c cs]; [discriminate|]. simpl.
  destruct (is_sign c) eqn:Hs; [|discriminate].
  destruct (span is_digit_or_dot cs) as [t o] eqn:E.
  destruct t as [|c1 t]; [discriminate|].
  intros H. injection H as <- <-.
  rewrite (span_parts _ _ _ _ E). split; [reflexivity|].
  exists c, (c1 :: t). split; [reflexivity|exact Hs].
Qed.

Lemma at_slash_end_cases (cs : list ascii) :
  at_slash_end cs = true -> cs = ["/"%char] \/ cs = ["/"%char; "010"%char].
Proof.
  destruct cs as [|c [|nl [|x cs]]]; simpl; try discriminate.
  - intros H. apply Ascii.eqb_eq in H. left. subst. reflexivity.
  - intros H. apply andb_true_iff in H. destruct H as [H1 H2].
    apply Ascii.eqb_eq in H1, H2. right. subst. reflexivity.
Qed.

(** X20: [from_iso6709] never accepts a text that does not start with a sign or
    does not end with the solidus, alone or followed by one newline. *)
Theorem from_iso6709_solidus (coordinates : string) :
  is_ok (from_iso6709 coordinates) = true ->
  exists sg body tail,
    coordinates = String sg body ++ tail
    /\ is_sign sg = true
    /\ (tail = "/" \/ tail = String "/" (String "010" EmptyString)).
Proof.
  intros H. unfold from_iso6709 in H.
  destruct (match_iso6709 coordinates) as [[[la lo] alt]|] eqn:M;
    [clear H|discriminate H].
  unfold match_iso6709 in M.
  destruct (signed_group (list_ascii_of_string coordinates))
    as [[g1 r1]|] eqn:G1; [|discriminate M].
  destruct (signed_group_parts _ _ _ G1) as (E1 & sg & body & -> & Hs).
  assert (T : exists mid tail,
             r1 = (mid ++ tail)%list
             /\ (tail = ["/"%char] \/ tail = ["/"%char; "010"%char])).
  { destruct (signed_group r1) as [[g2 r2]|] eqn:G2; [|discriminate M].
    destruct (signed_group_parts _ _ _ G2) as (E2 & _).
    destruct (signed_group r2) as [[g3 r3]|] eqn:G3.
    - destruct (signed_group_parts _ _ _ G3) as (E3 & _).
      destruct (at_slash_end r3) eqn:A; [|discriminate M].
      exists (g2 ++ g3)%list, r3. split.
      + rewrite E2, E3, app_assoc. reflexivity.
      + apply at_slash_end_cases, A.
    - destruct (at_slash_end r2) eqn:A; [|discriminate M].
      exists g2, r2. split; [exact E2 | apply at_slash_end_cases, A]. }
  destruct T as (mid & tail & -> & Ht).
  exists sg, (string_of_list_ascii (body ++ mid)), (string_of_list_ascii tail).
  split.
  - rewrite <- (string_of_list_ascii_of_string coordinates), E1.
    cbn [app string_of_list_ascii String.append].
    rewrite app_assoc, string_of_list_ascii_app. reflexivity.
  - split; [exact Hs|]. destruct Ht as [-> | ->]; [left | right]; reflexivity.
Qed.

Lemma from_iso6709_solidus_witness :
  exists sg body tail,
    "+27.5916+086.5640+8850/" = String sg body ++ tail
    /\ is_sign sg = true
    /\ (tail = "/" \/ tail = String "/" (String "010" EmptyString)).
Proof.
  apply (from_iso6709_solidus "+27.5916+086.5640+8850/").
  vm_compute. reflexivity.
Defined.
